(** * TypeORM-to-Prisma codemod: a shallow embedding of [src/typeorm-to-prisma.js]

    The codemod is a jscodeshift transform.  It parses one source file into a
    syntax tree, runs three stages over the tree ([transformEntityClasses],
    [transformRepositoryUsage], [transformModuleImports]) that mutate it in
    place and record what they did in the [fileChanged] flags, and finally
    returns either the printed tree or the original source.

    The stages are embedded from the source.  What they call of jscodeshift
    (and of ast-types and recast below it) is embedded as those libraries
    behave:
    - [root.find(T)] reaches the nodes that the fields of each node type
      lead to; the decorators of a class property are not among them;
    - [j(path).insertBefore(c)] puts the node [c] into the list that holds
      the node of the path, in front of it, and throws when the node is not
      an element of a list but the value of a field;
    - a path has no method [ancestors], so [path.ancestors()] throws;
    - the parser and the printer are parameters of [transform], and both may
      throw. *)

From Stdlib Require Import String Ascii List Bool Arith Lia.
Import ListNotations.
Open Scope string_scope.
Open Scope list_scope.

#[local] Set Warnings "-register-all".

(* ================================================================== *)
(** ** JavaScript strings and primitive values *)
(* ================================================================== *)

Module JsString.

(** [String.prototype.toLowerCase] on the letters [A] to [Z], which is what
    it does to a string of ASCII characters; the characters beyond are left
    as they are, and the properties below that depend on the result for an
    arbitrary string ask for [isAscii]. *)
Definition lower (c : ascii) : ascii :=
  let n := nat_of_ascii c in
  if (65 <=? n)%nat && (n <=? 90)%nat then ascii_of_nat (n + 32) else c.

Fixpoint toLowerCase (s : string) : string :=
  match s with
  | EmptyString => EmptyString
  | String c s' => String (lower c) (toLowerCase s')
  end.

Fixpoint isAscii (s : string) : bool :=
  match s with
  | EmptyString => true
  | String c s' => (nat_of_ascii c <? 128)%nat && isAscii s'
  end.

(** [s.includes(sub)] *)
Fixpoint includes (sub s : string) : bool :=
  String.prefix sub s ||
  match s with
  | EmptyString => false
  | String _ s' => includes sub s'
  end.

(** [s.endsWith(suf)] *)
Definition endsWith (suf s : string) : bool :=
  let ls := String.length s in
  let lf := String.length suf in
  (lf <=? ls)%nat && String.eqb (String.substring (ls - lf) lf s) suf.

(** [arr.includes(s)] for an array of strings. *)
Definition mem (s : string) (l : list string) : bool :=
  existsb (String.eqb s) l.

(** [s.match(/(.+)<suf>$/)] : the text before the suffix, which [.+]
    requires to be non-empty. *)
Definition beforeSuffix (suf s : string) : option string :=
  let ls := String.length s in
  let lf := String.length suf in
  if endsWith suf s && (lf <? ls)%nat
  then Some (String.substring 0 (ls - lf) s)
  else None.

End JsString.

(** String concatenation, [a + b] on JavaScript strings. *)
Infix "^^" := String.append (at level 60, right associativity).

(** The primitive values the transformation reads off a node and pastes
    into template strings.  A number is known by its decimal text, the one
    a template string prints ([1], [1.5], [1e+21]); that text tells whether
    the number is zero. *)
Inductive prim : Type :=
| PUndefined
| PStr (s : string)
| PNum (text : string)
| PBool (b : bool).

(** Truthiness, as in [a || b] and [if (a)]. *)
Definition truthy (p : prim) : bool :=
  match p with
  | PUndefined => false
  | PStr s => negb (String.eqb s "")
  | PNum t => negb (String.eqb t "0") && negb (String.eqb t "NaN")
  | PBool b => b
  end.

(** What [`${p}`] prints. *)
Definition tpl (p : prim) : string :=
  match p with
  | PUndefined => "undefined"
  | PStr s => s
  | PNum t => t
  | PBool true => "true"
  | PBool false => "false"
  end.

(** [p === 'lit'] *)
Definition isStr (lit : string) (p : prim) : bool :=
  match p with
  | PStr s => String.eqb s lit
  | _ => false
  end.

(* ================================================================== *)
(** ** Exceptions *)
(* ================================================================== *)

(** Reading a field of [undefined] or [null], calling what is not a
    function, and a failed assertion of the tree library all throw; the
    exception leaves the callback, the stage and the transform. *)
Inductive result (A : Type) : Type :=
| Ok (a : A)
| Thrown.
Arguments Ok {A} a.
Arguments Thrown {A}.

Definition bind {A B} (r : result A) (k : A -> result B) : result B :=
  match r with
  | Ok a => k a
  | Thrown => Thrown
  end.

Notation "'let?' x ':=' r 'in' k" := (bind r (fun x => k))
  (at level 10, x pattern, r at level 100, k at level 200).

Section MapM.
Context {A B : Type} (f : A -> result B).

(** [arr.map(f)] / [arr.forEach(f)] where [f] may throw. *)
Fixpoint mapM (l : list A) : result (list B) :=
  match l with
  | [] => Ok []
  | x :: l' =>
      let? y := f x in
      let? ys := mapM l' in
      Ok (y :: ys)
  end.
End MapM.

Section ArrayM.
Context {A : Type} (p : A -> result bool).

(** [arr.find(p)] *)
Fixpoint findM (l : list A) : result (option A) :=
  match l with
  | [] => Ok None
  | x :: l' =>
      let? b := p x in
      if b then Ok (Some x) else findM l'
  end.

(** [arr.findIndex(p)] ; [None] stands for [-1]. *)
Fixpoint findIndexM (l : list A) : result (option nat) :=
  match l with
  | [] => Ok None
  | x :: l' =>
      let? b := p x in
      if b then Ok (Some 0%nat)
      else let? r := findIndexM l' in Ok (option_map S r)
  end.

(** [arr.some(p)] *)
Definition someM (l : list A) : result bool :=
  let? r := findM l in
  Ok (match r with Some _ => true | None => false end).

(** [arr.filter(p)] *)
Fixpoint filterM (l : list A) : result (list A) :=
  match l with
  | [] => Ok []
  | x :: l' =>
      let? b := p x in
      let? r := filterM l' in
      Ok (if b then x :: r else r)
  end.
End ArrayM.

(** [arr.splice(i, 1)] *)
Fixpoint splice1 {A} (i : nat) (l : list A) : list A :=
  match l, i with
  | [], _ => []
  | _ :: l', O => l'
  | x :: l', S i' => x :: splice1 i' l'
  end.

(* ================================================================== *)
(** ** The syntax tree *)
(* ================================================================== *)

(** Type annotations.  [TSTypeReference] carries the [name] of its
    [typeName] ([None] when the type name is a qualified name, whose
    [name] field is undefined) and its type parameters. *)
Inductive tstype : Type :=
| TSStringKeyword
| TSNumberKeyword
| TSBooleanKeyword
| TSTypeReference (typeName : option string) (typeParameters : list tstype)
| TSOtherType.

Inductive specifier : Type :=
| ImportSpecifier (imported : string)
| ImportDefaultSpecifier (local : string)
| ImportNamespaceSpecifier (local : string).

(** A comment that the parser attached to a node.  No stage reads or
    writes these. *)
Inductive comment : Type :=
| Line (text : string)
| Block (text : string).

(** A node has a kind tag with the attributes of that kind, the comments
    the parser attached to it, and its ordered children: the nodes held by
    its fields.  A field holds either one node or a list of nodes, and the
    children of each kind are laid out as follows, the list written with
    dots:
    - [MemberExpression]: [object], [property];
    - [CallExpression]: [callee], [arguments...];
    - [ObjectExpression]: [properties...];
    - [Property]: [key], [value];
    - [ObjectMethod]: [key], [body], [params...];
    - [SpreadElement]: [argument];
    - [ArrowFunctionExpression], [FunctionExpression]: [body], [params...];
    - [Decorator]: [expression];
    - [ClassDeclaration id n]: [n] single nodes (the superclass, the class
      body), then the [decorators...];
    - [ClassProperty]: [key], then the initial value, if any, and the
      [decorators...], told apart by their kind;
    - [MethodDefinition]: [key], [value];
    - [TSParameterProperty]: [parameter];
    - [CommentLine], [CommentBlock]: the nodes that [j.commentLine] and
      [j.commentBlock] build, without children;
    - [Other type n]: any other kind, which has none of the fields read by
      the transformation: [n] single nodes, then the elements of its list
      ([Program], [BlockStatement] and [ClassBody] have [n = 0] and their
      [body]; [ExpressionStatement], [AwaitExpression] and
      [ExportNamedDeclaration] have [n = 1]).

    [Property] stands for the object property of the parser and for the
    node that [j.property] builds: the transformation reads the [key] and
    the [value] of both.  Of the members of an object literal a
    [SpreadElement] has no [key] and an [ObjectMethod] has no [value].
    The trees are those the parser builds, in which a node has the children
    its kind requires; a read of a child that is not there gives
    [undefined] like any read of a missing field. *)
Inductive kind : Type :=
| Identifier (name : string) (typeAnnotation : option tstype)
| ThisExpression
| StringLiteral (value : string)
| NumericLiteral (value : string)
| BooleanLiteral (value : bool)
| BigIntLiteral (value : string)
| NullLiteral
| MemberExpression
| CallExpression
| ObjectExpression
| Property
| ObjectMethod
| SpreadElement
| ArrowFunctionExpression
| FunctionExpression
| Decorator
| ClassDeclaration (id : option string) (fields : nat)
| ClassProperty (typeAnnotation : option tstype)
| MethodDefinition (methodKind : string)
| TSParameterProperty
| ImportDeclaration (specifiers : list specifier) (source : string)
| CommentLine (value : string)
| CommentBlock (value : string)
| Other (type : string) (fields : nat).

Inductive node : Type :=
| Node (k : kind) (comments : list comment) (children : list node).

Definition kindOf (n : node) : kind := let 'Node k _ _ := n in k.
Definition commentsOf (n : node) : list comment := let 'Node _ c _ := n in c.
Definition childrenOf (n : node) : list node := let 'Node _ _ l := n in l.

(** *** The builders of jscodeshift used by the transformation *)

Module j.
Definition identifier (name : string) : node := Node (Identifier name None) [] [].
Definition thisExpression : node := Node ThisExpression [] [].
Definition memberExpression (object property : node) : node :=
  Node MemberExpression [] [object; property].
Definition objectExpression (properties : list node) : node :=
  Node ObjectExpression [] properties.
(** [j.property('init', key, value)] *)
Definition property (key value : node) : node := Node Property [] [key; value].
Definition importDeclaration (specifiers : list specifier) (source : string) : node :=
  Node (ImportDeclaration specifiers source) [] [].
Definition commentLine (value : string) : node := Node (CommentLine value) [] [].
Definition commentBlock (value : string) : node := Node (CommentBlock value) [] [].
End j.

(** *** Field access *)

(** [n.name] *)
Definition name (n : node) : prim :=
  match kindOf n with
  | Identifier s _ => PStr s
  | _ => PUndefined
  end.

(** [n.value] where [n] is an expression or a comment node: literals and
    comments have it.  The value of a big integer literal is its digits. *)
Definition value (n : node) : prim :=
  match kindOf n with
  | StringLiteral s => PStr s
  | NumericLiteral t => PNum t
  | BooleanLiteral b => PBool b
  | BigIntLiteral s => PStr s
  | CommentLine s => PStr s
  | CommentBlock s => PStr s
  | _ => PUndefined
  end.

(** [p.key], for a member of an object literal; [None] is [undefined]. *)
Definition key (p : node) : option node :=
  match p with
  | Node Property _ (k :: _) => Some k
  | Node ObjectMethod _ (k :: _) => Some k
  | Node (ClassProperty _) _ (k :: _) => Some k
  | Node (MethodDefinition _) _ (k :: _) => Some k
  | _ => None
  end.

(** [p.value], for a member of an object literal. *)
Definition propValue (p : node) : option node :=
  match p with
  | Node Property _ (_ :: v :: _) => Some v
  | Node (MethodDefinition _) _ (_ :: v :: _) => Some v
  | _ => None
  end.

(** [o.f] throws when [o] is undefined. *)
Definition deref {A} (o : option A) : result A :=
  match o with
  | Some a => Ok a
  | None => Thrown
  end.

(** [p.key.name] *)
Definition keyName (p : node) : result prim :=
  let? k := deref (key p) in Ok (name k).

(** [p.key.value] *)
Definition keyValue (p : node) : result prim :=
  let? k := deref (key p) in Ok (value k).

(** [p.key.name === s || p.key.value === s] *)
Definition keyIs (s : string) (p : node) : result bool :=
  let? n := keyName p in
  if isStr s n then Ok true
  else let? v := keyValue p in Ok (isStr s v).

(** [p.key.name || p.key.value] *)
Definition keyLabel (p : node) : result prim :=
  let? n := keyName p in
  if truthy n then Ok n else keyValue p.

(** [call.callee], [call.arguments], [m.object], [m.property] *)
Definition callee (n : node) : option node :=
  match n with
  | Node CallExpression _ (c :: _) => Some c
  | _ => None
  end.

Definition arguments (n : node) : list node :=
  match n with
  | Node CallExpression _ (_ :: a) => a
  | _ => []
  end.

Definition object (n : node) : option node :=
  match n with
  | Node MemberExpression _ (o :: _) => Some o
  | _ => None
  end.

Definition property (n : node) : option node :=
  match n with
  | Node MemberExpression _ (_ :: p :: _) => Some p
  | _ => None
  end.

(** [d.expression], for a decorator. *)
Definition expression (n : node) : option node :=
  match n with
  | Node Decorator _ (e :: _) => Some e
  | _ => None
  end.

(** [f.body], [f.params] for a function. *)
Definition body (n : node) : option node :=
  match n with
  | Node ArrowFunctionExpression _ (b :: _) => Some b
  | Node FunctionExpression _ (b :: _) => Some b
  | _ => None
  end.

Definition params (n : node) : option (list node) :=
  match n with
  | Node ArrowFunctionExpression _ (_ :: ps) => Some ps
  | Node FunctionExpression _ (_ :: ps) => Some ps
  | _ => None
  end.

(** [p.decorators], for a class property. *)
Definition isDecorator (n : node) : bool :=
  match kindOf n with Decorator => true | _ => false end.

Definition decorators (n : node) : list node :=
  match n with
  | Node (ClassProperty _) _ (_ :: l) => filter isDecorator l
  | _ => []
  end.

(** *** Field assignment *)

(** [m.object = o'] *)
Definition setObject (o' : node) (m : node) : node :=
  match m with
  | Node k cs (_ :: l) => Node k cs (o' :: l)
  | _ => m
  end.

(** [m.property = p'] *)
Definition setProperty (p' : node) (m : node) : node :=
  match m with
  | Node k cs (o :: _ :: l) => Node k cs (o :: p' :: l)
  | _ => m
  end.

(** [call.callee = f (call.callee)] *)
Definition updCallee (f : node -> node) (call : node) : node :=
  match call with
  | Node k cs (c :: a) => Node k cs (f c :: a)
  | _ => call
  end.

(** [call.arguments = a'] *)
Definition setArguments (a' : list node) (call : node) : node :=
  match call with
  | Node k cs (c :: _) => Node k cs (c :: a')
  | _ => call
  end.

(** [p.key = k'] *)
Definition setKey (k' : node) (p : node) : node :=
  match p with
  | Node k cs (_ :: l) => Node k cs (k' :: l)
  | _ => p
  end.

(** [l[i] = f (l[i])] *)
Fixpoint updateAt {A} (i : nat) (f : A -> A) (l : list A) : list A :=
  match l, i with
  | [], _ => []
  | x :: l', O => f x :: l'
  | x :: l', S i' => x :: updateAt i' f l'
  end.

(** *** Tree queries *)

(** The children that a traversal goes into.  The field [decorators] of a
    class property is not among the fields the tree library knows of that
    node type, so a traversal passes it by; the callback over the class
    properties reads it directly ([property.decorators]). *)
Definition reached (k : kind) (c : node) : bool :=
  match k with
  | ClassProperty _ => negb (isDecorator c)
  | _ => true
  end.

(** The node and everything a traversal reaches below it, in the order of a
    depth-first visit. *)
Fixpoint subnodes (n : node) : list node :=
  match n with
  | Node k _ l => n :: flat_map (fun c => if reached k c then subnodes c else []) l
  end.

(** The nodes a traversal reaches strictly below [n]. *)
Definition below (n : node) : list node :=
  match n with
  | Node k _ l => flat_map (fun c => if reached k c then subnodes c else []) l
  end.

(** [j(path).find(T)]: the nodes reached below [n] that satisfy [p], in
    visit order. *)
Definition find (p : node -> bool) (n : node) : list node :=
  filter p (below n).

Definition isClassDeclaration (n : node) : bool :=
  match kindOf n with ClassDeclaration _ _ => true | _ => false end.

Definition isClassProperty (n : node) : bool :=
  match kindOf n with ClassProperty _ => true | _ => false end.

Definition isCallExpression (n : node) : bool :=
  match kindOf n with CallExpression => true | _ => false end.

Definition isMemberExpression (n : node) : bool :=
  match kindOf n with MemberExpression => true | _ => false end.

Definition isObjectExpression (n : node) : bool :=
  match kindOf n with ObjectExpression => true | _ => false end.

Definition isIdentifier (n : node) : bool :=
  match kindOf n with Identifier _ _ => true | _ => false end.

Definition isThisExpression (n : node) : bool :=
  match kindOf n with ThisExpression => true | _ => false end.

Definition isNullLiteral (n : node) : bool :=
  match kindOf n with NullLiteral => true | _ => false end.

Definition isUndefined (p : prim) : bool :=
  match p with PUndefined => true | _ => false end.

Definition isComment (n : node) : bool :=
  match kindOf n with CommentLine _ | CommentBlock _ => true | _ => false end.

(* ================================================================== *)
(** ** Visiting the tree *)
(* ================================================================== *)

(** What a visited node sees of its surroundings: whether it lies below a
    class declaration, and the root of the file, which the resolver
    searches. *)
Record context : Type := {
  insideClass : bool;
  root : node
}.

Definition enter (k : kind) (ctx : context) : context :=
  match k with
  | ClassDeclaration _ _ => {| insideClass := true; root := root ctx |}
  | _ => ctx
  end.

(** Is the child at index [i] of a node of kind [k] an element of a list,
    rather than the value of a field? *)
Definition inList (k : kind) (i : nat) : bool :=
  match k with
  | CallExpression | ArrowFunctionExpression | FunctionExpression => (1 <=? i)%nat
  | ObjectMethod => (2 <=? i)%nat
  | ObjectExpression => true
  | ClassDeclaration _ fields | Other _ fields => (fields <=? i)%nat
  | _ => false
  end.

(** [j(path).insertBefore(c)] asks the parent of the path to put [c] at the
    index of the path, which the parent does when its value is an array and
    otherwise refuses with an exception.  A callback below hands the nodes
    it inserts to the traversal, in the order in which they end up, and
    [place] does the insertion, or throws, where the visited node sits. *)
Definition insertBefore (c : node) (inserted : list node) : list node :=
  inserted ++ [c].

Definition place (inl : bool) (visited : list node * node) : result (list node) :=
  let '(inserted, n) := visited in
  match inserted with
  | [] => Ok [n]
  | _ :: _ => if inl then Ok (inserted ++ [n]) else Thrown
  end.

Fixpoint placeAll (k : kind) (i : nat) (r : list (list node * node))
  : result (list node) :=
  match r with
  | [] => Ok []
  | x :: r' =>
      let? out := place (inList k i) x in
      let? outs := placeAll k (S i) r' in
      Ok (out ++ outs)
  end.

(** [root.find(T).forEach(callback)] visits every node of kind [T] reached
    below the root and lets the callback mutate it in place.  A callback
    that returns has left the tree alone, or put comment nodes in front of
    the node it visits, or rewritten that node; and it only reads the kind
    of the nodes around the one it visits, their names and literal values,
    none of which a rewrite changes.  So the visits do not disturb
    one another, an exception in any of them is the outcome of the pass,
    and the pass is a map over the tree: the children are visited, then the
    node.  Each visit returns the nodes it inserts in front of the node,
    the node as it leaves it, and the log of what it recorded in the
    variables of the enclosing function. *)

Section Walk.
Context {E : Type}.
Variable visit : context -> node -> result (list node * node * list E).

Fixpoint walk (ctx : context) (n : node) : result (list node * node * list E) :=
  match n with
  | Node k cs l =>
      let? r := mapM (fun c => if reached k c then walk (enter k ctx) c
                               else Ok ([], c, [])) l in
      let? l' := placeAll k 0 (map fst r) in
      let? v := visit ctx (Node k cs l') in
      Ok (fst v, snd v ++ concat (map snd r))
  end.

(** The nodes strictly below the root. *)
Definition walkBelow (ctx : context) (n : node) : result (node * list E) :=
  match n with
  | Node k cs l =>
      let? r := mapM (fun c => if reached k c then walk (enter k ctx) c
                               else Ok ([], c, [])) l in
      let? l' := placeAll k 0 (map fst r) in
      Ok (Node k cs l', concat (map snd r))
  end.
End Walk.

(** [arr.length > 0] on a log: did any visit record something? *)
Definition fired {E} (log : list E) : bool :=
  match log with
  | [] => false
  | _ :: _ => true
  end.

(* ================================================================== *)
(** ** Context resolver ([getModelNameFromContext]) *)
(* ================================================================== *)

(** [path.ancestors()].  The paths that [forEach] hands to a callback offer
    [parent], [parentPath], [get] and the like; [ancestors] is not a field
    of theirs, so [path.ancestors] is [undefined], and calling it throws a
    [TypeError]. *)
Definition ancestors (path : context) : result (list node) := Thrown.

(** [className.match(/(.+)(Service|Controller|Repository)$/)[1]] *)
Definition serviceMatch (className : string) : option string :=
  match JsString.beforeSuffix "Service" className with
  | Some b => Some b
  | None =>
      match JsString.beforeSuffix "Controller" className with
      | Some b => Some b
      | None => JsString.beforeSuffix "Repository" className
      end
  end.

(** The loop over the ancestors: it stops at the first class declaration
    that has an [id] and keeps its name. *)
Fixpoint enclosingClassName (ancestors : list node) : option string :=
  match ancestors with
  | [] => None
  | ancestor :: rest =>
      match kindOf ancestor with
      | ClassDeclaration (Some className) _ => Some className
      | _ => enclosingClassName rest
      end
  end.

Definition classNamed (className : string) (n : node) : bool :=
  match kindOf n with
  | ClassDeclaration (Some s) _ => String.eqb s className
  | _ => false
  end.

(** The filter of the repository property lookup: an identifier key
    [repository] and a type annotation. *)
Definition isRepositoryProperty (n : node) : bool :=
  match n with
  | Node (ClassProperty (Some _)) _ (k :: _) =>
      isIdentifier k && isStr "repository" (name k)
  | _ => false
  end.

(** The entity type [T] of an annotation [Repository<T>]. *)
Definition repositoryEntity (t : tstype) : prim :=
  match t with
  | TSTypeReference (Some "Repository") (TSTypeReference tn _ :: _) =>
      match tn with Some s => PStr s | None => PUndefined end
  | _ => PUndefined
  end.

(** The second heuristic: the declared type of the [repository] property of
    the first class of that name in the file. *)
Definition repositoryPropertyEntity (rt : node) (className : string) : prim :=
  match find (classNamed className) rt with
  | [] => PUndefined
  | classDeclaration :: _ =>
      match find isRepositoryProperty classDeclaration with
      | Node (ClassProperty (Some t)) _ _ :: _ => repositoryEntity t
      | _ => PUndefined
      end
  end.

(** [this.repository], read as the receiver of a call. *)
Definition isThisRepository (repositoryObj : node) : bool :=
  match repositoryObj with
  | Node MemberExpression _ (o :: p :: _) =>
      isIdentifier p && isStr "repository" (name p) && isThisExpression o
  | _ => false
  end.

(** [getModelNameFromContext(path)]; [PUndefined] stands for [null] too.
    Its first statement is the call of [path.ancestors]. *)
Definition getModelNameFromContext (path : context) (call : node) : result prim :=
  let? ancestors := ancestors path in
  let className := enclosingClassName ancestors in
  match match className with
        | Some className => serviceMatch className
        | None => None
        end with
  | Some base => Ok (PStr base)
  | None =>
      match callee call with
      | Some (Node MemberExpression _ (repositoryObj :: _)) =>
          if isThisRepository repositoryObj then
            match className with
            | Some className => Ok (repositoryPropertyEntity (root path) className)
            | None => Ok PUndefined
            end
          else Ok PUndefined
      | _ => Ok PUndefined
      end
  end.

(** [this.prisma.<getModelNameFromContext(callPath) || 'model'>] *)
Definition prismaModel (path : context) (call : node) : result node :=
  let? m := getModelNameFromContext path call in
  Ok (j.memberExpression
        (j.memberExpression j.thisExpression (j.identifier "prisma"))
        (j.identifier (if truthy m then tpl m else "model"))).

(* ================================================================== *)
(** ** Call-site rewriter ([transformRepositoryUsage], the method calls) *)
(* ================================================================== *)

(** [{ where: v }], [{ data: v }], [{ where: { id: v } }] *)
Definition whereObject (v : node) : node :=
  j.objectExpression [j.property (j.identifier "where") v].

Definition dataObject (v : node) : node :=
  j.objectExpression [j.property (j.identifier "data") v].

Definition whereIdObject (v : node) : node :=
  whereObject (j.objectExpression [j.property (j.identifier "id") v]).

(** [{ where: { id: idValue }, data: d }] *)
Definition whereIdDataObject (idValue d : node) : node :=
  j.objectExpression
    [j.property (j.identifier "where")
       (j.objectExpression [j.property (j.identifier "id") idValue]);
     j.property (j.identifier "data") d].

Definition optionKeys : list string :=
  ["relations"; "select"; "order"; "skip"; "take"].

(** [['relations', 'select', 'order', 'skip', 'take'].includes(p.key.name || p.key.value)] *)
Definition isOption (p : node) : result bool :=
  let? l := keyLabel p in
  Ok (match l with
      | PStr s => JsString.mem s optionKeys
      | _ => false
      end).

Definition isCriterion (p : node) : result bool :=
  let? b := isOption p in Ok (negb b).

(** [transformRelationsToInclude(options)]: the first property keyed
    [relations] gets the key [include]; reading the [type] of its value
    throws when it has none. *)
Definition transformRelationsToInclude (options : node) : result node :=
  match options with
  | Node ObjectExpression cs props =>
      let? i := findIndexM (keyIs "relations") props in
      match i with
      | Some i =>
          let? _ := deref (propValue (nth i props options)) in
          Ok (Node ObjectExpression cs
                (updateAt i (setKey (j.identifier "include")) props))
      | None => Ok options
      end
  | _ => Ok options
  end.

(** [transformFindOneArguments(args)] *)
Definition transformFindOneArguments (args : list node) : result (list node) :=
  match args with
  | [] => Ok args
  | firstArg :: rest =>
      match firstArg with
      | Node ObjectExpression cs props =>
          let? whereProperty := findM (keyIs "where") props in
          let? props' :=
            match whereProperty with
            | Some _ => Ok props
            | None =>
                let? criteria := filterM isCriterion props in
                match criteria with
                | [] => Ok props
                | _ :: _ =>
                    let? kept := filterM isOption props in
                    Ok (kept ++
                        [j.property (j.identifier "where")
                           (j.objectExpression criteria)])
                end
            end in
          let? firstArg' :=
            transformRelationsToInclude (Node ObjectExpression cs props') in
          Ok (firstArg' :: rest)
      | _ => Ok args
      end
  end.

(** [transformDeleteArguments(args)] *)
Definition transformDeleteArguments (args : list node) : list node :=
  match args with
  | [] => args
  | firstArg :: rest =>
      match kindOf firstArg with
      | NumericLiteral _ | StringLiteral _ | Identifier _ _ =>
          whereIdObject firstArg :: rest
      | ObjectExpression => whereObject firstArg :: rest
      | _ => args
      end
  end.

(** The test of the [save] loop on one property:
    [prop.key.name === 'id' && prop.value.type !== 'NullLiteral' &&
     prop.value.value !== undefined]. *)
Definition definesId (prop : node) : result bool :=
  let? n := keyName prop in
  if isStr "id" n then
    let? v := deref (propValue prop) in
    Ok (negb (isNullLiteral v) && negb (isUndefined (value v)))
  else Ok false.

Definition keyNameIs (s : string) (p : node) : result bool :=
  let? n := keyName p in Ok (isStr s n).

Definition saveNote : node :=
  j.commentLine " NOTE: TypeORM `save` could be either create or update. Verify correct behavior.".

Definition queryBuilderTodo : node :=
  j.commentLine " TODO: Replace TypeORM query builder with Prisma equivalent - manual conversion needed".

Definition nl : string := String (ascii_of_nat 10) EmptyString.

Definition queryBuilderExample : node :=
  j.commentBlock (String.concat nl
    [""; " Example Prisma replacement for query builder:"; " "; " TypeORM:";
     " const users = await this.repository";
     "   .createQueryBuilder('user')";
     "   .leftJoinAndSelect('user.profile', 'profile')";
     "   .where('user.isActive = :isActive', { isActive: true })";
     "   .getMany();"; " "; " Prisma:";
     " const users = await this.prisma.user.findMany({";
     "   where: {"; "     isActive: true"; "   },";
     "   include: {"; "     profile: true"; "   }"; " });"; ""]).

(** [callee.object = this.prisma.<model>; callee.property = j.identifier(m)].
    The right-hand side of the first assignment is evaluated first, and with
    it the resolver. *)
Definition toPrisma (path : context) (m : string) (call : node) : result node :=
  let? model := prismaModel path call in
  Ok (updCallee (fun c => setProperty (j.identifier m) (setObject model c)) call).

(** [callee.object = this.prisma.<model>], the method name left for later. *)
Definition toPrismaObject (path : context) (call : node) : result node :=
  let? model := prismaModel path call in
  Ok (updCallee (setObject model) call).

(** [call.arguments[0] = f (call.arguments[0])], when there is one. *)
Definition wrapFirst (f : node -> node) (args : list node) : list node :=
  match args with
  | [] => []
  | a :: rest => f a :: rest
  end.

(** The [save] case: the comment it inserts and the call as it leaves it. *)
Definition rewriteSave (path : context) (call : node) : result (list node * node) :=
  let? call1 := toPrismaObject path call in
  let inserted := insertBefore saveNote [] in
  let args := arguments call1 in
  let? hasIdProperty :=
    match args with
    | [Node ObjectExpression _ objProperties] => someM definesId objProperties
    | _ => Ok false
    end in
  if hasIdProperty then
    match args with
    | Node k cs props :: rest =>
        let? idPropIndex := findIndexM (keyNameIs "id") props in
        let? idValue_data :=
          match idPropIndex with
          | Some i =>
              let? p := deref (nth_error props i) in
              let? v := deref (propValue p) in
              Ok (Some v, Node k cs (splice1 i props))
          | None => Ok (None, Node k cs props)
          end in
        let '(idValue, dataObj) := idValue_data in
        (* the builder rejects a null value *)
        let? idValue := deref idValue in
        Ok (inserted,
            setArguments (whereIdDataObject idValue dataObj :: rest)
              (updCallee (setProperty (j.identifier "update")) call1))
    | [] => Thrown
    end
  else
    let call2 := updCallee (setProperty (j.identifier "create")) call1 in
    match args with
    | [Node ObjectExpression _ _ as a] => Ok (inserted, setArguments [dataObject a] call2)
    | _ => Ok (inserted, call2)
    end.

(** The [count] case. *)
Definition rewriteCount (path : context) (call : node) : result node :=
  let? call1 := toPrisma path "count" call in
  match arguments call1 with
  | (Node ObjectExpression _ props as a) :: rest =>
      let? hasWhere := someM (keyIs "where") props in
      if hasWhere then Ok call1
      else Ok (setArguments (whereObject a :: rest) call1)
  | _ => Ok call1
  end.

(** The [update] case. *)
Definition rewriteUpdate (path : context) (call : node) : result node :=
  let? call1 := toPrisma path "update" call in
  match arguments call1 with
  | idArg :: dataArg :: _ => Ok (setArguments [whereIdDataObject idArg dataArg] call1)
  | _ => Ok call1
  end.

(** The test that opens the callback:
    [callee.type === 'MemberExpression' &&
     callee.object.type === 'MemberExpression' &&
     callee.object.property.name === 'repository']. *)
Definition isRepositoryCall (call : node) : result bool :=
  let? c := deref (callee call) in
  if isMemberExpression c then
    let? o := deref (object c) in
    if isMemberExpression o then
      let? p := deref (property o) in
      Ok (isStr "repository" (name p))
    else Ok false
  else Ok false.

(** A case of the [switch] that inserts nothing. *)
Definition plain (r : result node) : result (list node * node) :=
  let? call := r in Ok ([], call).

(** The [switch (methodName)]: the comments the case inserts in front of
    the call, and the call as the case leaves it. *)
Definition rewriteMethod (path : context) (methodName : prim) (call : node)
  : result (list node * node) :=
  if isStr "find" methodName then plain (toPrisma path "findMany" call)
  else if isStr "findOne" methodName then
    let? call1 := toPrisma path "findUnique" call in
    let? args := transformFindOneArguments (arguments call1) in
    Ok ([], setArguments args call1)
  else if isStr "findOneBy" methodName then
    let? call1 := toPrisma path "findUnique" call in
    Ok ([], setArguments (wrapFirst whereObject (arguments call1)) call1)
  else if isStr "findBy" methodName then
    let? call1 := toPrisma path "findMany" call in
    Ok ([], setArguments (wrapFirst whereObject (arguments call1)) call1)
  else if isStr "save" methodName then rewriteSave path call
  else if isStr "update" methodName then plain (rewriteUpdate path call)
  else if isStr "delete" methodName || isStr "remove" methodName then
    let? call1 := toPrisma path "delete" call in
    Ok ([], setArguments (transformDeleteArguments (arguments call1)) call1)
  else if isStr "count" methodName then plain (rewriteCount path call)
  else if isStr "createQueryBuilder" methodName then
    Ok (insertBefore queryBuilderExample (insertBefore queryBuilderTodo []), call)
  else Ok ([], call).

(** The callback of [root.find(j.CallExpression).forEach]: the inserted
    comments, the call as it is left, and whether [fileChanged.services]
    was set. *)
Definition rewriteCall (path : context) (call : node)
  : result (list node * node * bool) :=
  let? isRepo := isRepositoryCall call in
  if isRepo then
    let? c := deref (callee call) in
    let? p := deref (property c) in
    let? r := rewriteMethod path (name p) call in
    Ok (r, true)
  else Ok ([], call, false).

(* ================================================================== *)
(** ** Mapping tables *)
(* ================================================================== *)

(** [typeormToPrismaTypeMap].  Only the lower-case keys can be hit, since
    the lookup key is lower-cased first.  The two last lines are the
    lower-case properties every JavaScript object inherits, printed the way
    a template string prints them. *)
Definition typeormToPrismaTypeMap : list (string * string) :=
  [("string", "String"); ("number", "Int"); ("boolean", "Boolean");
   ("Date", "DateTime"); ("json", "Json"); ("varchar", "String");
   ("text", "String"); ("int", "Int"); ("integer", "Int");
   ("smallint", "Int"); ("bigint", "BigInt"); ("float", "Float");
   ("double", "Float"); ("decimal", "Decimal"); ("date", "DateTime");
   ("datetime", "DateTime"); ("timestamp", "DateTime"); ("enum", "Enum");
   ("jsonb", "Json"); ("uuid", "String"); ("simple-array", "String[]");
   ("simple-json", "Json");
   ("constructor", "function Object() { [native code] }");
   ("__proto__", "[object Object]")].

Fixpoint lookup (k : string) (m : list (string * string)) : option string :=
  match m with
  | [] => None
  | (k', v) :: m' => if String.eqb k k' then Some v else lookup k m'
  end.

(** [mapTypeOrmTypeToPrisma(typeormType)]; [typeormType.toLowerCase()]
    throws on [undefined]. *)
Definition mapTypeOrmTypeToPrisma (typeormType : prim) : result string :=
  match typeormType with
  | PStr s =>
      Ok (match lookup (JsString.toLowerCase s) typeormToPrismaTypeMap with
          | Some t => t
          | None => "String"
          end)
  | _ => Thrown
  end.

Definition typeName (o : option string) : prim :=
  match o with
  | Some s => PStr s
  | None => PUndefined
  end.

(** [extractTypeFromProperty(property)] *)
Definition extractTypeFromProperty (property : node) : result string :=
  match kindOf property with
  | ClassProperty (Some TSStringKeyword) => Ok "String"
  | ClassProperty (Some TSNumberKeyword) => Ok "Int"
  | ClassProperty (Some TSBooleanKeyword) => Ok "Boolean"
  | ClassProperty (Some (TSTypeReference tn _)) =>
      match tn with
      | Some "Date" => Ok "DateTime"
      | Some "number" => Ok "Int"
      | Some "string" => Ok "String"
      | Some "boolean" => Ok "Boolean"
      | _ => mapTypeOrmTypeToPrisma (typeName tn)
      end
  | _ => Ok "String"
  end.

(* ================================================================== *)
(** ** Schema extractor ([transformEntityClasses]) *)
(* ================================================================== *)

(** The double quote. *)
Definition dq : string := String (ascii_of_nat 34) EmptyString.

Section FoldM.
Context {A B : Type} (f : A -> B -> result A).

(** [arr.forEach] with a callback that updates a variable and may throw. *)
Fixpoint foldM (l : list B) (a : A) : result A :=
  match l with
  | [] => Ok a
  | x :: l' => let? a' := f a x in foldM l' a'
  end.
End FoldM.

(** A decorator that is a call: the [name] of its callee and its
    arguments; [None] when [decorator.expression] is not a call. *)
Definition decoratorCall (decorator : node) : result (option (prim * list node)) :=
  let? e := deref (expression decorator) in
  if isCallExpression e then
    let? c := deref (callee e) in
    Ok (Some (name c, arguments e))
  else Ok None.

(** [if (prop.key.name === 'name') entityOptions.name = prop.value.value] *)
Definition entityNameOption (entityName : prim) (prop : node) : result prim :=
  let? n := keyName prop in
  if isStr "name" n then
    let? v := deref (propValue prop) in Ok (value v)
  else Ok entityName.

(** The callback over the decorators below a class; the variables are
    [isEntity] and [entityOptions.name]. *)
Definition scanEntityDecorator (vars : bool * prim) (decorator : node)
  : result (bool * prim) :=
  let? dc := decoratorCall decorator in
  match dc with
  | Some (callName, args) =>
      if isStr "Entity" callName then
        match args with
        | Node (StringLiteral v) _ _ :: _ => Ok (true, PStr v)
        | Node ObjectExpression _ props :: _ =>
            let? entityName := foldM entityNameOption props (snd vars) in
            Ok (true, entityName)
        | _ => Ok (true, snd vars)
        end
      else Ok vars
  | None => Ok vars
  end.

Definition isTrue (p : prim) : bool :=
  match p with PBool true => true | _ => false end.

(** One property of the options object of [@Column]; the variables are
    [columnType] and [columnOptions]. *)
Definition columnOption (vars : string * list string) (prop : node)
  : result (string * list string) :=
  let '(columnType, columnOptions) := vars in
  let? n := keyName prop in
  if isStr "type" n then
    let? v := deref (propValue prop) in
    match kindOf v with
    | StringLiteral s =>
        let? t := mapTypeOrmTypeToPrisma (PStr s) in Ok (t, columnOptions)
    | _ => Ok vars
    end
  else if isStr "nullable" n then
    let? v := deref (propValue prop) in
    Ok (columnType, if isTrue (value v) then columnOptions ++ ["?"] else columnOptions)
  else if isStr "default" n then
    let? v := deref (propValue prop) in
    let? defaultValue :=
      match kindOf v with
      | StringLiteral s => Ok (PStr (dq ^^ s ^^ dq))
      | NumericLiteral _ | BooleanLiteral _ => Ok (value v)
      | CallExpression =>
          let? c := deref (callee v) in
          Ok (PStr (if isStr "Date" (name c) then "now()" else ""))
      | _ => Ok (PStr "")
      end in
    Ok (columnType,
        if truthy defaultValue
        then columnOptions ++ ["@default(" ^^ tpl defaultValue ^^ ")"]
        else columnOptions)
  else if isStr "unique" n then
    let? v := deref (propValue prop) in
    Ok (columnType, if isTrue (value v) then columnOptions ++ ["@unique"] else columnOptions)
  else Ok vars.

(** The target model of a relation: the body of the thunk given as first
    argument, or without arguments the declared type of the property, or
    the placeholder. *)
Definition relationTarget (property : node) (decoratorArgs : list node)
  : result string :=
  let? targetType :=
    match decoratorArgs with
    | firstArg :: _ =>
        if match kindOf firstArg with ArrowFunctionExpression => true | _ => false end
        then
          let? b := deref (body firstArg) in
          Ok (if isIdentifier b then name b else PStr "")
        else Ok (PStr "")
    | [] =>
        match kindOf property with
        | ClassProperty (Some (TSTypeReference tn _)) => Ok (typeName tn)
        | _ => Ok (PStr "")
        end
    end in
  Ok (if truthy targetType then tpl targetType else "Unknown").

(** What one decorator of a property appends to [modelDefinition]. *)
Definition decoratedField (className : string) (property : node)
    (propertyName : prim) (decorator : node) : result string :=
  let? dc := decoratorCall decorator in
  match dc with
  | None => Ok ""
  | Some (decoratorName, decoratorArgs) =>
      let fieldName := tpl propertyName in
      if isStr "PrimaryGeneratedColumn" decoratorName then
        let '(idType, idOptions) :=
          match decoratorArgs with
          | firstArg :: _ =>
              match kindOf firstArg with
              | StringLiteral "uuid" => ("String", "@id @default(uuid())")
              | StringLiteral "increment" => ("Int", "@id @default(autoincrement())")
              | _ => ("Int", "")
              end
          | [] => ("Int", "@id @default(autoincrement())")
          end in
        Ok ("  " ^^ fieldName ^^ " " ^^ idType ^^ " " ^^ idOptions ^^ nl)
      else if isStr "PrimaryColumn" decoratorName then
        let? primaryType := extractTypeFromProperty property in
        Ok ("  " ^^ fieldName ^^ " " ^^ primaryType ^^ " @id" ^^ nl)
      else if isStr "Column" decoratorName then
        let? col :=
          match decoratorArgs with
          | typeArg :: _ =>
              match typeArg with
              | Node (StringLiteral s) _ _ =>
                  let? t := mapTypeOrmTypeToPrisma (PStr s) in Ok (t, [])
              | Node ObjectExpression _ props =>
                  foldM columnOption props ("String", [])
              | _ => Ok ("String", [])
              end
          | [] =>
              let? t := extractTypeFromProperty property in Ok (t, [])
          end in
        let '(columnType, columnOptions) := col in
        Ok ("  " ^^ fieldName ^^ " " ^^ columnType ^^
            match columnOptions with
            | [] => ""
            | _ :: _ => " " ^^ String.concat " " columnOptions
            end ^^ nl)
      else if isStr "CreateDateColumn" decoratorName then
        Ok ("  " ^^ fieldName ^^ " DateTime @default(now())" ^^ nl)
      else if isStr "UpdateDateColumn" decoratorName then
        Ok ("  " ^^ fieldName ^^ " DateTime @updatedAt" ^^ nl)
      else if isStr "DeleteDateColumn" decoratorName then
        Ok ("  " ^^ fieldName ^^ " DateTime? @map(" ^^ dq ^^ "deleted_at" ^^ dq ^^ ")" ^^ nl)
      else if isStr "OneToOne" decoratorName || isStr "ManyToOne" decoratorName
              || isStr "OneToMany" decoratorName || isStr "ManyToMany" decoratorName
      then
        let? targetType := relationTarget property decoratorArgs in
        if isStr "OneToOne" decoratorName then
          Ok ("  " ^^ fieldName ^^ " " ^^ targetType ^^ "? @relation(" ^^ dq
              ^^ className ^^ "To" ^^ targetType ^^ dq ^^ ")" ^^ nl)
        else if isStr "ManyToOne" decoratorName then
          Ok ("  " ^^ fieldName ^^ " " ^^ targetType ^^ " @relation(" ^^ dq
              ^^ fieldName ^^ "Relation" ^^ dq ^^ ")" ^^ nl
              ^^ "  " ^^ fieldName ^^ "Id Int" ^^ nl)
        else if isStr "OneToMany" decoratorName then
          Ok ("  " ^^ fieldName ^^ " " ^^ targetType ^^ "[] @relation(" ^^ dq
              ^^ fieldName ^^ "Relation" ^^ dq ^^ ")" ^^ nl)
        else
          Ok ("  " ^^ fieldName ^^ " " ^^ targetType ^^ "[] @relation(" ^^ dq
              ^^ className ^^ "To" ^^ targetType ^^ dq ^^ ")" ^^ nl)
      else Ok ""
  end.

(** The callback over the class properties below an entity class. *)
Definition propertyFields (className : string) (modelDefinition : string)
    (property : node) : result string :=
  let? propertyName := keyName property in
  foldM (fun def decorator =>
           let? field := decoratedField className property propertyName decorator in
           Ok (def ^^ field))
        (decorators property) modelDefinition.

(** The callback over the class declarations: [None] for a class that is
    not an entity, else the class name and its model definition. *)
Definition entityModel (classNode : node) : result (option (string * string)) :=
  let? className :=
    match kindOf classNode with
    | ClassDeclaration id _ => deref id
    | _ => Thrown
    end in
  let? vars := foldM scanEntityDecorator (find isDecorator classNode) (false, PUndefined) in
  let '(isEntity, entityName) := vars in
  if negb isEntity then Ok None
  else
    let modelName := className in
    let tableName :=
      if truthy entityName then tpl entityName else JsString.toLowerCase className in
    let? modelDefinition :=
      foldM (propertyFields className) (find isClassProperty classNode)
        ("model " ^^ modelName ^^ " {" ^^ nl) in
    Ok (Some (className,
              modelDefinition ^^ nl ^^ "  @@map(" ^^ dq ^^ tableName ^^ dq ^^ ")"
              ^^ nl ^^ "}" ^^ nl)).

Definition entityNote : node :=
  j.commentLine " The TypeORM entity below should be replaced with the Prisma Client. Use the Prisma schema generated by `npx prisma db pull` instead.".

(** The callback over the class declarations: the comment it inserts in
    front of an entity class, the class, which it leaves as it is, and the
    model it has put into [prismaModels]. *)
Definition visitClass (_ : context) (n : node)
  : result (list node * node * list (string * string)) :=
  if isClassDeclaration n then
    let? m := entityModel n in
    match m with
    | Some model => Ok (insertBefore entityNote [], n, [model])
    | None => Ok ([], n, [])
    end
  else Ok ([], n, []).

(** [prismaModels.set(className, modelDefinition)] *)
Fixpoint mapSet (k v : string) (m : list (string * string)) : list (string * string) :=
  match m with
  | [] => [(k, v)]
  | (k', v') :: m' =>
      if String.eqb k k' then (k, v) :: m' else (k', v') :: mapSet k v m'
  end.

(** [fileChanged] *)
Record fileChanged : Type := {
  entities : bool;
  repositories : bool;
  modules : bool;
  services : bool
}.

(** The variables of one invocation that the stages share. *)
Record state : Type := {
  tree : node;
  changed : fileChanged;
  prismaModels : list (string * string)
}.

Definition rootContext (rt : node) : context :=
  {| insideClass := false; root := rt |}.

Definition transformEntityClasses (st : state) : result state :=
  let? r := walkBelow visitClass (rootContext (tree st)) (tree st) in
  let '(tree', models) := r in
  Ok {| tree := tree';
        changed :=
          {| entities := fired models || entities (changed st);
             repositories := repositories (changed st);
             modules := modules (changed st);
             services := services (changed st) |};
        prismaModels :=
          fold_left (fun m kv => mapSet (fst kv) (snd kv) m) models (prismaModels st) |}.

(* ================================================================== *)
(** ** Repository usage ([transformRepositoryUsage]) *)
(* ================================================================== *)

(** [private prisma: PrismaService] *)
Definition prismaParameter : node :=
  Node (Identifier "private prisma"
          (Some (TSTypeReference (Some "PrismaService") []))) [] [].

(** [param.parameter] *)
Definition parameter (n : node) : option node :=
  match n with
  | Node TSParameterProperty _ (p :: _) => Some p
  | _ => None
  end.

(** The callback over the parameters of a constructor: the parameter as it
    is left, and whether it injected a repository. *)
Definition injectPrisma (param : node) : result (node * bool) :=
  match kindOf param with
  | TSParameterProperty =>
      let? p := deref (parameter param) in
      match kindOf p with
      | Identifier _ (Some (TSTypeReference tn _)) =>
          if isStr "Repository" (typeName tn)
          then Ok (prismaParameter, true)
          else Ok (param, false)
      | _ => Ok (param, false)
      end
  | _ => Ok (param, false)
  end.

(** [f.params = ps], [m.value = v] *)
Definition setParams (ps : list node) (f : node) : node :=
  match f with
  | Node k cs (b :: _) => Node k cs (b :: ps)
  | _ => f
  end.

Definition setValue (v : node) (m : node) : node :=
  match m with
  | Node k cs (key :: _ :: l) => Node k cs (key :: v :: l)
  | _ => m
  end.

Definition isConstructor (n : node) : bool :=
  match kindOf n with
  | MethodDefinition k => String.eqb k "constructor"
  | _ => false
  end.

(** The callback over the constructors below a class declaration: the
    constructor as it is left and [hasRepositoryParam]. *)
Definition rewriteConstructor (n : node) : result (node * bool) :=
  let? v := deref (propValue n) in
  let? ps := deref (params v) in
  let? r := mapM injectPrisma ps in
  Ok (setValue (setParams (map fst r) v) n, existsb snd r).

Definition visitConstructor (ctx : context) (n : node)
  : result (list node * node * list unit) :=
  if insideClass ctx && isConstructor n then
    let? r := rewriteConstructor n in
    let '(n', hasRepositoryParam) := r in
    Ok ([], n', if hasRepositoryParam then [tt] else [])
  else Ok ([], n, []).

(** The callback over the call expressions. *)
Definition visitCall (ctx : context) (n : node)
  : result (list node * node * list unit) :=
  if isCallExpression n then
    let? r := rewriteCall ctx n in
    let '(visited, services) := r in
    Ok (visited, if services then [tt] else [])
  else Ok ([], n, []).

Definition setServices (b : bool) (c : fileChanged) : fileChanged :=
  {| entities := entities c;
     repositories := repositories c;
     modules := modules c;
     services := b || services c |}.

Definition transformRepositoryUsage (st : state) : result state :=
  let? r1 := walkBelow visitConstructor (rootContext (tree st)) (tree st) in
  let '(tree1, injected) := r1 in
  let? r2 := walkBelow visitCall (rootContext tree1) tree1 in
  let '(tree2, calls) := r2 in
  Ok {| tree := tree2;
        changed := setServices (fired calls) (setServices (fired injected) (changed st));
        prismaModels := prismaModels st |}.

(* ================================================================== *)
(** ** Import and registration rewriter ([transformModuleImports]) *)
(* ================================================================== *)

Definition isImportDeclaration (n : node) : bool :=
  match kindOf n with ImportDeclaration _ _ => true | _ => false end.

(** [s.type === 'ImportSpecifier' && names.includes(s.imported.name)] *)
Definition importsOneOf (names : list string) (s : specifier) : bool :=
  match s with
  | ImportSpecifier imported => JsString.mem imported names
  | _ => false
  end.

Definition schemaDecorators : list string :=
  ["Entity"; "Column"; "PrimaryColumn"; "PrimaryGeneratedColumn";
   "CreateDateColumn"; "UpdateDateColumn"; "DeleteDateColumn";
   "OneToOne"; "ManyToOne"; "OneToMany"; "ManyToMany";
   "JoinColumn"; "JoinTable"].

Definition prismaServiceImport : node :=
  j.importDeclaration [ImportSpecifier "PrismaService"] "./prisma.service".

Definition prismaModuleImport : node :=
  j.importDeclaration [ImportSpecifier "PrismaModule"] "./prisma/prisma.module".

Definition entityImportTodo : node :=
  j.commentLine " TODO: Review entity import - might need to use Prisma types instead".

(** What the callback over the import declarations records. *)
Inductive importEvent : Type :=
| UnshiftPrismaService
| ModulesChanged.

(** The callback over the import declarations: what stands in place of the
    declaration afterwards (nothing once it is removed) and what was
    recorded. *)
Definition rewriteImport (n : node) : list node * list importEvent :=
  match n with
  | Node (ImportDeclaration specifiers source) cs l =>
      if String.eqb source "typeorm" then
        let hasRepositoryImport := existsb (importsOneOf ["Repository"]) specifiers in
        let hasEntityImport := existsb (importsOneOf ["Entity"]) specifiers in
        let specifiers1 :=
          if hasRepositoryImport
          then filter (fun s => negb (importsOneOf ["Repository"; "getRepository"] s)) specifiers
          else specifiers in
        (* the second filter starts again from the original [specifiers] *)
        let specifiers2 :=
          if hasEntityImport
          then filter (fun s => negb (importsOneOf schemaDecorators s)) specifiers
          else specifiers1 in
        (match specifiers2 with
         | [] => []
         | _ :: _ => [Node (ImportDeclaration specifiers2 source) cs l]
         end,
         (if hasRepositoryImport then [UnshiftPrismaService; ModulesChanged] else [])
         ++ (if hasEntityImport then [ModulesChanged] else []))
      else if JsString.includes "typeorm/repository" (JsString.toLowerCase source) then
        ([], [ModulesChanged])
      else if JsString.endsWith ".entity" source || JsString.includes "/entities/" source then
        (insertBefore entityImportTodo [] ++ [n], [])
      else ([n], [])
  | _ => ([n], [])
  end.

(** What stands in place of a visited declaration goes into the list that
    held the declaration.  Where the declaration was the value of a field,
    a marker cannot be inserted in front of it ([insertBefore] throws), and
    a removal empties the field. *)
Definition placeOut (inl : bool) (out : list node) : result (list node) :=
  if inl then Ok out
  else match out with
       | _ :: _ :: _ => Thrown
       | _ => Ok out
       end.

Fixpoint placeOuts (k : kind) (i : nat) (outs : list (list node))
  : result (list node) :=
  match outs with
  | [] => Ok []
  | out :: outs' =>
      let? here := placeOut (inList k i) out in
      let? rest := placeOuts k (S i) outs' in
      Ok (here ++ rest)
  end.

(** [root.find(j.ImportDeclaration).forEach]: the import declarations sit in
    statement lists, from which a removed one disappears.  The marker of an
    entity import goes to the index that the path of the import holds;
    [body.unshift] in the branch of [typeorm] adds a statement without the
    paths being told, so that a marker inserted later in the same loop can
    end up one statement off.  Nothing but the printer ever looks at the
    marker, and the model puts it right in front of the import. *)
Fixpoint visitImports (n : node) : result (node * list importEvent) :=
  match n with
  | Node k cs l =>
      let? r := mapM (fun c =>
                        if reached k c then
                          let? v := visitImports c in
                          let '(out, own) :=
                            if isImportDeclaration (fst v)
                            then rewriteImport (fst v) else ([fst v], []) in
                          Ok (out, own ++ snd v)
                        else Ok ([c], [])) l in
      let? l' := placeOuts k 0 (map fst r) in
      Ok (Node k cs l', concat (map snd r))
  end.

(** [root.get().node.program.body.unshift(x)] *)
Definition unshift (x : node) (rt : node) : node :=
  let 'Node k cs l := rt in Node k cs (x :: l).

Definition isUnshift (e : importEvent) : bool :=
  match e with UnshiftPrismaService => true | ModulesChanged => false end.

Definition isModulesChanged (e : importEvent) : bool :=
  match e with ModulesChanged => true | UnshiftPrismaService => false end.

Definition importsFrom (src : string) (n : node) : bool :=
  match kindOf n with
  | ImportDeclaration _ source => String.eqb source src
  | _ => false
  end.

(** [addPrismaModuleImport()] *)
Definition addPrismaModuleImport (rt : node) : node :=
  match find (importsFrom "./prisma/prisma.module") rt with
  | [] => unshift prismaModuleImport rt
  | _ :: _ => rt
  end.

Definition isIdentifierNamed (s : string) (n : node) : bool :=
  isIdentifier n && isStr s (name n).

(** The filter [{ callee: { type: 'Identifier', name: 'forFeature' } }] *)
Definition isForFeatureCall (n : node) : bool :=
  match n with
  | Node CallExpression _ (c :: _) => isIdentifierNamed "forFeature" c
  | _ => false
  end.

(** The test of the callback over the [forFeature] calls, seen from the
    parent of the call: a member expression on the identifier
    [TypeOrmModule]. *)
Definition isForFeatureParent (parent : node) : bool :=
  match parent with
  | Node MemberExpression _ (o :: l) =>
      existsb isForFeatureCall (o :: l) && isIdentifierNamed "TypeOrmModule" o
  | _ => false
  end.

(** The callback replaces the parent. *)
Definition visitForFeature (_ : context) (parent : node)
  : result (list node * node * list unit) :=
  if isForFeatureParent parent
  then Ok ([], j.identifier "PrismaModule", [tt])
  else Ok ([], parent, []).

(** The filter of the [forRoot] calls. *)
Definition isForRootCall (n : node) : bool :=
  match n with
  | Node CallExpression _ (Node MemberExpression _ (o :: p :: _) :: _) =>
      isIdentifierNamed "TypeOrmModule" o && isIdentifierNamed "forRoot" p
  | _ => false
  end.

Definition visitForRoot (_ : context) (n : node)
  : result (list node * node * list unit) :=
  if isForRootCall n then
    let 'Node k cs _ := n in
    Ok ([], Node k cs [j.identifier "PrismaModule"], [tt])
  else Ok ([], n, []).

Definition setModules (b : bool) (c : fileChanged) : fileChanged :=
  {| entities := entities c;
     repositories := repositories c;
     modules := b || modules c;
     services := services c |}.

Definition transformModuleImports (st : state) : result state :=
  let? r1 := visitImports (tree st) in
  let '(tree1, events) := r1 in
  let tree1 := fold_left (fun t _ => unshift prismaServiceImport t)
                 (filter isUnshift events) tree1 in
  let? r2 := walkBelow visitForFeature (rootContext tree1) tree1 in
  let '(tree2, features) := r2 in
  let tree2 := if fired features then addPrismaModuleImport tree2 else tree2 in
  let? r3 := walkBelow visitForRoot (rootContext tree2) tree2 in
  let '(tree3, roots) := r3 in
  let tree3 := if fired roots then addPrismaModuleImport tree3 else tree3 in
  Ok {| tree := tree3;
        changed :=
          setModules (fired roots)
            (setModules (fired features)
               (setModules (fired (filter isModulesChanged events)) (changed st)));
        prismaModels := prismaModels st |}.

(* ================================================================== *)
(** ** The transform ([module.exports]) *)
(* ================================================================== *)

Definition unchanged : fileChanged :=
  {| entities := false; repositories := false; modules := false; services := false |}.

Definition initialState (rt : node) : state :=
  {| tree := rt; changed := unchanged; prismaModels := [] |}.

(** The three stages, in their order. *)
Definition applyAll (rt : node) : result state :=
  let? s1 := transformEntityClasses (initialState rt) in
  let? s2 := transformRepositoryUsage s1 in
  transformModuleImports s2.

Definition anyChanged (c : fileChanged) : bool :=
  entities c || repositories c || modules c || services c.

Section Transform.
(** [j(fileInfo.source)] and [root.toSource()], the parser and the
    printer of jscodeshift.  The printer throws on trees it cannot print,
    among them a list of statements into which comment nodes have been
    inserted beside the statements. *)
Variable parse : string -> result node.
Variable toSource : node -> result string.

Definition transform (source : string) : result string :=
  let? rt := parse source in
  let? st := applyAll rt in
  if anyChanged (changed st)
  then toSource (tree st)
  else Ok source.
End Transform.

(* ================================================================== *)
(** ** The relation descriptor of the specification *)
(* ================================================================== *)

(** The four relation annotations, and what the specification says of the
    relation name and of the foreign key of each; the extractor is compared
    with these below. *)
Inductive relationKind : Type := OneToOne | ManyToOne | OneToMany | ManyToMany.

Definition decoratorOf (k : relationKind) : string :=
  match k with
  | OneToOne => "OneToOne"
  | ManyToOne => "ManyToOne"
  | OneToMany => "OneToMany"
  | ManyToMany => "ManyToMany"
  end.

Definition specRelationName (k : relationKind)
    (owningClass fieldName target : string) : string :=
  match k with
  | OneToOne | ManyToMany => owningClass ^^ "To" ^^ target
  | ManyToOne | OneToMany => fieldName ^^ "Relation"
  end.

Definition specOwnsForeignKey (k : relationKind) : bool :=
  match k with
  | ManyToOne => true
  | _ => false
  end.

(** How the field type is written: optional, single, list. *)
Definition typeSuffix (k : relationKind) : string :=
  match k with
  | OneToOne => "?"
  | ManyToOne => ""
  | OneToMany | ManyToMany => "[]"
  end.

(** The line of a relation field and, for the owner of a foreign key, the
    line of the scalar field, as the specification words them. *)
Definition specRelationLines (k : relationKind)
    (owningClass fieldName target : string) : string :=
  "  " ^^ fieldName ^^ " " ^^ target ^^ typeSuffix k
  ^^ " @relation(" ^^ dq
  ^^ specRelationName k owningClass fieldName target ^^ dq ^^ ")" ^^ nl
  ^^ (if specOwnsForeignKey k
      then "  " ^^ fieldName ^^ "Id Int" ^^ nl
      else "").

(** *** The fields of a model, one after the other *)

Section Pieces.
Context {B : Type} (f : B -> result string).

(** The texts that [f] gives for the elements of a list, put end to end. *)
Fixpoint piecesM (l : list B) : result string :=
  match l with
  | [] => Ok ""
  | x :: l' =>
      let? s := f x in
      let? r := piecesM l' in
      Ok (s ^^ r)
  end.
End Pieces.

(** The lines of one class property: what each of its decorators renders,
    in the order of the decorators. *)
Definition propertyLines (className : string) (property : node) : result string :=
  let? propertyName := keyName property in
  piecesM (decoratedField className property propertyName) (decorators property).

(** The lines of a model: those of the class properties found below the
    class, in the order in which they are found. *)
Definition modelLines (className : string) (classNode : node) : result string :=
  piecesM (propertyLines className) (find isClassProperty classNode).

(** The result of a run, for a run that does not throw. *)
Definition stateOf (r : result state) (rt : node) : state :=
  match r with
  | Ok st => st
  | Thrown => initialState rt
  end.

(* ================================================================== *)
(** ** Sites the stages act on *)
(* ================================================================== *)

(** The test of the callback over the calls, as a boolean. *)
Definition isRepositoryCallSite (n : node) : bool :=
  match isRepositoryCall n with
  | Ok true => true
  | _ => false
  end.

(** [call.callee.property.name], the method of a call on a member. *)
Definition methodName (call : node) : prim :=
  match callee call with
  | Some c =>
      match property c with
      | Some p => name p
      | None => PUndefined
      end
  | None => PUndefined
  end.

(** The method names of the [switch]. *)
Definition ruleTable : list string :=
  ["find"; "findOne"; "findOneBy"; "findBy"; "save"; "update"; "delete";
   "remove"; "count"; "createQueryBuilder"].

Definition inRuleTable (methodName : prim) : bool :=
  match methodName with
  | PStr m => JsString.mem m ruleTable
  | _ => false
  end.

(** The cases of the [switch] that ask the resolver for the model: all of
    them but [createQueryBuilder]. *)
Definition resolvedMethods : list string :=
  ["find"; "findOne"; "findOneBy"; "findBy"; "save"; "update"; "delete";
   "remove"; "count"].

(** A call on a [repository] member of one of these methods. *)
Definition isResolvedCall (n : node) : bool :=
  isRepositoryCallSite n
  && match methodName n with
     | PStr m => JsString.mem m resolvedMethods
     | _ => false
     end.

(** A [createQueryBuilder] call on a [repository] member. *)
Definition isQueryBuilderCall (n : node) : bool :=
  isRepositoryCallSite n && isStr "createQueryBuilder" (methodName n).

(** Is there a call on a [repository] member below the root? *)
Definition hasRepositoryCall (n : node) : bool :=
  existsb isRepositoryCallSite (below n).

(** An import declaration that the import rewriter passes over. *)
Definition isForeignImport (specifiers : list specifier) (source : string) : bool :=
  if String.eqb source "typeorm" then
    negb (existsb (importsOneOf ["Repository"]) specifiers)
    && negb (existsb (importsOneOf ["Entity"]) specifiers)
    && match specifiers with [] => false | _ :: _ => true end
  else
    negb (JsString.includes "typeorm/repository" (JsString.toLowerCase source))
    && negb (JsString.endsWith ".entity" source || JsString.includes "/entities/" source).

(** A node on which no callback of any stage acts: not an entity class, not
    a constructor that injects a repository, not a call on a [repository]
    member, not an import of the source library or of an entity module, not
    a module registration; and no test of a callback throws on it. *)
Definition untouched (n : node) : bool :=
  (if isClassDeclaration n
   then match entityModel n with Ok None => true | _ => false end
   else true)
  && (if isConstructor n
      then match rewriteConstructor n with Ok (_, false) => true | _ => false end
      else true)
  && (if isCallExpression n
      then match isRepositoryCall n with Ok false => true | _ => false end
      else true)
  && match kindOf n with
     | ImportDeclaration specifiers source => isForeignImport specifiers source
     | _ => true
     end
  && negb (isForFeatureParent n)
  && negb (isForRootCall n).

(** A file free of the shapes the stages look for. *)
Definition sourceFree (rt : node) : bool :=
  forallb untouched (below rt).

(** A callback passes over a node when, in every context, it inserts
    nothing, leaves the node as it is and records nothing. *)
Definition passesOver {E : Type}
    (visit : context -> node -> result (list node * node * list E)) (n : node) : Prop :=
  forall ctx, visit ctx n = Ok ([], n, []).

(* ================================================================== *)
(** ** Object literals made of properties *)
(* ================================================================== *)

(** What [transformFindOneArguments] makes of an object literal all of
    whose members are properties with a key and a value, told without the
    exceptions; the helper is compared with this below. *)

Definition isKeyed (p : node) : bool :=
  match key p, propValue p with
  | Some _, Some _ => true
  | _, _ => false
  end.

(** The key of a property is [s], as an identifier or as a string. *)
Definition labelled (s : string) (p : node) : bool :=
  match key p with
  | Some k => isStr s (name k) || isStr s (value k)
  | None => false
  end.

(** The key of a property is the identifier [s]. *)
Definition named (s : string) (p : node) : bool :=
  match key p with
  | Some k => isStr s (name k)
  | None => false
  end.

(** The key of a property is one of the five option names. *)
Definition isOptionProperty (p : node) : bool :=
  match key p with
  | Some k =>
      match (if truthy (name k) then name k else value k) with
      | PStr s => JsString.mem s optionKeys
      | _ => false
      end
  | None => false
  end.

(** [h] applied to the first element that satisfies [f]. *)
Fixpoint updateFirst {A} (f : A -> bool) (h : A -> A) (l : list A) : list A :=
  match l with
  | [] => []
  | x :: l' => if f x then h x :: l' else x :: updateFirst f h l'
  end.

(** The first property that satisfies [f] gets the key [include]. *)
Definition renameFirst (f : node -> bool) (props : list node) : list node :=
  updateFirst f (setKey (j.identifier "include")) props.

(** The argument [findOne] is said to end up with: the option properties,
    [relations] renamed, then the other properties under [where]. *)
Definition specFindOneArgument (cs : list comment) (props : list node) : node :=
  let criteria := filter (fun p => negb (isOptionProperty p)) props in
  let kept := filter isOptionProperty props in
  Node ObjectExpression cs
    (renameFirst (labelled "relations") kept
     ++ match criteria with
        | [] => []
        | _ :: _ => [j.property (j.identifier "where") (j.objectExpression criteria)]
        end).

(* ================================================================== *)
(** ** Sample trees *)
(* ================================================================== *)

Module Sample.
Definition ident (s : string) : node := j.identifier s.
Definition num (text : string) : node := Node (NumericLiteral text) [] [].
Definition str (s : string) : node := Node (StringLiteral s) [] [].
Definition call (c : node) (args : list node) : node :=
  Node CallExpression [] (c :: args).
Definition spread (n : node) : node := Node SpreadElement [] [n].

(** [this.repository.<m>(args)] *)
Definition repositoryCall (m : string) (args : list node) : node :=
  call (j.memberExpression
          (j.memberExpression j.thisExpression (ident "repository"))
          (ident m)) args.

(** [n;] *)
Definition statement (n : node) : node := Node (Other "ExpressionStatement" 1) [] [n].
(** [{ stmts }] *)
Definition block (stmts : list node) : node := Node (Other "BlockStatement" 0) [] stmts.
(** [m() { stmts }], a method of a class as the TypeScript parser gives it. *)
Definition method (m : string) (stmts : list node) : node :=
  Node (Other "ClassMethod" 2) [] [ident m; block stmts].
(** [@decorators class className { members }] *)
Definition class (className : string) (decorators members : list node) : node :=
  Node (ClassDeclaration (Some className) 1) []
    (Node (Other "ClassBody" 0) [] members :: decorators).
(** [@d(args)] *)
Definition decorator (d : string) (args : list node) : node :=
  Node Decorator [] [call (ident d) args].
(** [export <declaration>] *)
Definition exported (declaration : node) : node :=
  Node (Other "ExportNamedDeclaration" 1) [] [declaration].
Definition program (stmts : list node) : node := Node (Other "Program" 0) [] stmts.

(** [class UserService { run() { n; } }] *)
Definition userService (n : node) : node :=
  program [class "UserService" [] [method "run" [statement n]]].

Definition inUserService : context :=
  {| insideClass := true; root := program [] |}.

(** [import { specifiers } from 'source'] *)
Definition import (specifiers : list string) (source : string) : node :=
  j.importDeclaration (map ImportSpecifier specifiers) source.
End Sample.

(* ================================================================== *)
(** ** The schema document (the end of [module.exports]) *)
(* ================================================================== *)

(** The head of the generated schema. *)
Definition prismaSchemaPreamble : string :=
  String.concat nl
    ["// This is your Prisma schema file,";
     "// learn more about it in the docs: https://pris.ly/d/prisma-schema";
     "";
     "generator client {";
     "  provider = " ^^ dq ^^ "prisma-client-js" ^^ dq;
     "}";
     "";
     "datasource db {";
     "  provider = " ^^ dq ^^ "postgresql" ^^ dq ^^ " // Change to your actual database provider";
     "  url      = env(" ^^ dq ^^ "DATABASE_URL" ^^ dq ^^ ")";
     "}";
     "";
     ""].

(** [prismaModels.forEach((modelDef) => { prismaSchema += modelDef + '\n' })];
    [prismaEnums] is never added to. *)
Definition prismaSchema (models : list (string * string)) : string :=
  fold_left (fun schema model => schema ^^ snd model ^^ nl) models
    prismaSchemaPreamble.

(** What is handed to [console.log] once the stages are through: the schema
    when [prismaModels.size > 0] ([prismaSchemaFragments] stays empty),
    nothing otherwise. *)
Definition loggedSchema (st : state) : option string :=
  if fired (prismaModels st) then Some (prismaSchema (prismaModels st)) else None.

(** An import of the source library that the import rewriter records in
    [fileChanged.modules]. *)
Definition isSourceLibraryImport (n : node) : bool :=
  match kindOf n with
  | ImportDeclaration specifiers source =>
      if String.eqb source "typeorm"
      then existsb (importsOneOf ["Repository"]) specifiers
           || existsb (importsOneOf ["Entity"]) specifiers
      else JsString.includes "typeorm/repository" (JsString.toLowerCase source)
  | _ => false
  end.

(** A class declaration without a name, as in [export default class {}]. *)
Definition isAnonymousClass (n : node) : bool :=
  match kindOf n with
  | ClassDeclaration None _ => true
  | _ => false
  end.

(** [TypeOrmModule.<method>(args)], as a module file writes it. *)
Definition typeOrmModuleCall (cs : list comment) (method : string) (args : list node) : node :=
  Node CallExpression cs
    (j.memberExpression (j.identifier "TypeOrmModule") (j.identifier method) :: args).

(** An entity class: the callback over the class declarations builds a
    model for it. *)
Definition isEntityClass (n : node) : bool :=
  isClassDeclaration n
  && match entityModel n with
     | Ok (Some _) => true
     | _ => false
     end.

(* ================================================================== *)
(** * Properties *)
(* ================================================================== *)

(** ** Inversion of [let?], induction on trees *)

(** Structural induction that reaches the children. *)
Lemma node_ind' (P : node -> Prop) :
  (forall k c l, Forall P l -> P (Node k c l)) -> forall n, P n.
Proof.
  intros H. fix IH 1. intros [k c l]. apply H.
  induction l as [|x l IHl]; constructor; [apply IH | exact IHl].
Qed.

Lemma bind_Ok {A B} (r : result A) (k : A -> result B) (b : B) :
  bind r k = Ok b -> exists a, r = Ok a /\ k a = Ok b.
Proof. destruct r as [a|]; simpl; [eauto | discriminate]. Qed.

Ltac inv_bind H :=
  let a := fresh "a" in
  let Ha := fresh "Ha" in
  apply bind_Ok in H; destruct H as (a & Ha & H).

(* ------------------------------------------------------------------ *)
(** ** The schema extractor *)
(* ------------------------------------------------------------------ *)

Lemma append_assoc' (a b c : string) : (a ^^ b) ^^ c = a ^^ (b ^^ c).
Proof. induction a as [|x a IH]; simpl; [reflexivity | now rewrite IH]. Qed.

Lemma append_nil_r s : s ^^ "" = s.
Proof. induction s as [|c s IH]; simpl; [reflexivity | now rewrite IH]. Qed.

Lemma deref_Ok {A} (o : option A) (a : A) : deref o = Ok a -> o = Some a.
Proof. destruct o; simpl; congruence. Qed.

(** What a relation decorator appends to the model definition. *)
Lemma decoratedField_relation (k : relationKind) (className : string)
    (property decorator : node) (propertyName : prim)
    (decoratorArgs : list node) (target : string) :
  decoratorCall decorator = Ok (Some (PStr (decoratorOf k), decoratorArgs)) ->
  relationTarget property decoratorArgs = Ok target ->
  decoratedField className property propertyName decorator
  = Ok (specRelationLines k className (tpl propertyName) target).
Proof.
  intros Hd Ht. unfold decoratedField, specRelationLines. rewrite Hd. simpl.
  destruct k; simpl; rewrite Ht; simpl;
    rewrite ?append_assoc'; reflexivity.
Qed.

(** A relation decorator whose field is rendered has a target. *)
Lemma decoratedField_relation_target (k : relationKind) (className : string)
    (property decorator : node) (propertyName : prim)
    (decoratorArgs : list node) (field : string) :
  decoratorCall decorator = Ok (Some (PStr (decoratorOf k), decoratorArgs)) ->
  decoratedField className property propertyName decorator = Ok field ->
  exists target, relationTarget property decoratorArgs = Ok target.
Proof.
  intros Hd H. unfold decoratedField in H. rewrite Hd in H.
  destruct (relationTarget property decoratorArgs) as [target|] eqn:Ht; [eauto|].
  destruct k; simpl in H; rewrite Ht in H; discriminate.
Qed.

(** *** Loops that append to a string *)

Section Appends.
Context {B : Type} (f : B -> result string).

(** [arr.forEach((x) => { def += f(x) })] appends the texts of the
    elements, end to end, to what was there. *)
Lemma foldM_append l :
  forall def,
    foldM (fun def x => let? s := f x in Ok (def ^^ s)) l def
    = let? r := piecesM f l in Ok (def ^^ r).
Proof.
  induction l as [|x l IH]; simpl; intros def.
  - now rewrite append_nil_r.
  - destruct (f x) as [s|]; simpl; [|reflexivity].
    rewrite IH. destruct (piecesM f l) as [r|]; simpl; [|reflexivity].
    now rewrite append_assoc'.
Qed.

(** The text of each element is part of the whole. *)
Lemma piecesM_In l :
  forall r x,
    piecesM f l = Ok r ->
    In x l ->
    exists before s after, f x = Ok s /\ r = before ^^ s ^^ after.
Proof.
  induction l as [|y l IH]; simpl; intros r x H Hin; [destruct Hin|].
  inv_bind H. inv_bind H. injection H as <-.
  destruct Hin as [-> | Hin].
  - exists "", a, a0. split; [exact Ha | reflexivity].
  - destruct (IH _ _ Ha0 Hin) as (before & s & after & Hs & ->).
    exists (a ^^ before), s, after. split; [exact Hs|].
    now rewrite append_assoc'.
Qed.
End Appends.

Lemma foldM_ext {A B} (f g : A -> B -> result A) l :
  (forall a x, f a x = g a x) -> forall a, foldM f l a = foldM g l a.
Proof.
  intros H. induction l as [|x l IH]; simpl; intros a; [reflexivity|].
  rewrite H. destruct (g a x); simpl; [apply IH | reflexivity].
Qed.

Lemma propertyFields_lines className def property :
  propertyFields className def property
  = let? s := propertyLines className property in Ok (def ^^ s).
Proof.
  unfold propertyFields, propertyLines.
  destruct (keyName property) as [propertyName|]; simpl; [|reflexivity].
  apply foldM_append.
Qed.

(** The model of an entity class, taken apart: the name of the class, the
    opening line, the lines of the fields, the [@@map] line. *)
Lemma entityModel_inv classNode className definition :
  entityModel classNode = Ok (Some (className, definition)) ->
  exists fields entityName lines,
    kindOf classNode = ClassDeclaration (Some className) fields
    /\ foldM scanEntityDecorator (find isDecorator classNode) (false, PUndefined)
       = Ok (true, entityName)
    /\ modelLines className classNode = Ok lines
    /\ definition
       = "model " ^^ className ^^ " {" ^^ nl ^^ lines ^^ nl
         ^^ "  @@map(" ^^ dq
         ^^ (if truthy entityName then tpl entityName
             else JsString.toLowerCase className)
         ^^ dq ^^ ")" ^^ nl ^^ "}" ^^ nl.
Proof.
  unfold entityModel. intros H. inv_bind H. rename a into cn.
  inv_bind H. destruct a as [isEntity entityName].
  destruct isEntity; [|discriminate]. simpl in H. inv_bind H.
  injection H as <- <-.
  rewrite (foldM_ext _ _ _ (propertyFields_lines cn)) in Ha1.
  rewrite foldM_append in Ha1.
  destruct (piecesM (propertyLines cn) (find isClassProperty classNode))
    as [lines|] eqn:Hl; [|discriminate].
  injection Ha1 as <-.
  destruct (kindOf classNode) eqn:K; try discriminate.
  apply deref_Ok in Ha. subst id.
  exists fields, entityName, lines. repeat split; try assumption.
  unfold nl. simpl. rewrite !append_assoc'. simpl. rewrite ?append_assoc'.
  reflexivity.
Qed.

(** C4.  The model fragment of an entity class holds, for every relation
    decorator of every class property found below the class, the line of
    the relation field, whose relation name is [<class>To<target>] for
    [OneToOne] and [ManyToMany] and [<field>Relation] for [ManyToOne] and
    [OneToMany], followed by the line of the scalar field [<field>Id] for
    [ManyToOne] and by nothing for the three others: these lines are what
    the decorator renders, and what it renders is part of the fragment. *)
Theorem relation_field_in_model (k : relationKind)
    (classNode property decorator : node) (className definition : string)
    (propertyName : prim) (decoratorArgs : list node) :
  entityModel classNode = Ok (Some (className, definition)) ->
  In property (find isClassProperty classNode) ->
  In decorator (decorators property) ->
  keyName property = Ok propertyName ->
  decoratorCall decorator = Ok (Some (PStr (decoratorOf k), decoratorArgs)) ->
  exists target before after,
    relationTarget property decoratorArgs = Ok target
    /\ decoratedField className property propertyName decorator
       = Ok (specRelationLines k className (tpl propertyName) target)
    /\ definition
       = before ^^ specRelationLines k className (tpl propertyName) target ^^ after.
Proof.
  intros He Hp Hd Hk Hc.
  destruct (entityModel_inv _ _ _ He) as (fields & entityName & lines & _ & _ & Hl & ->).
  unfold modelLines in Hl.
  destruct (piecesM_In _ _ _ _ Hl Hp) as (b1 & s & a1 & Hs & ->).
  unfold propertyLines in Hs. rewrite Hk in Hs. simpl in Hs.
  destruct (piecesM_In _ _ _ _ Hs Hd) as (b2 & field & a2 & Hf & ->).
  destruct (decoratedField_relation_target _ _ _ _ _ _ _ Hc Hf) as (target & Ht).
  pose proof (decoratedField_relation k className property decorator
                propertyName decoratorArgs target Hc Ht) as Hr.
  rewrite Hr in Hf. injection Hf as <-.
  exists target.
  exists ("model " ^^ className ^^ " {" ^^ nl ^^ b1 ^^ b2).
  eexists. split; [exact Ht|]. split; [exact Hr|].
  rewrite !append_assoc'. reflexivity.
Qed.

Lemma relation_field_in_model_witness :
  let decorator := Sample.decorator "ManyToOne" [] in
  let property :=
    Node (ClassProperty (Some (TSTypeReference (Some "Team") []))) []
      [Sample.ident "team"; decorator] in
  let classNode :=
    Sample.class "User" [Sample.decorator "Entity" []]
      [Node (ClassProperty (Some TSStringKeyword)) []
         [Sample.ident "email"; Sample.decorator "Column" []];
       property] in
  exists target before after,
    relationTarget property [] = Ok target
    /\ decoratedField "User" property (PStr "team") decorator
       = Ok (specRelationLines ManyToOne "User" (tpl (PStr "team")) target)
    /\ "model User {" ^^ nl ^^ "  email String" ^^ nl
       ^^ "  team Team @relation(" ^^ dq ^^ "teamRelation" ^^ dq ^^ ")" ^^ nl
       ^^ "  teamId Int" ^^ nl ^^ nl
       ^^ "  @@map(" ^^ dq ^^ "user" ^^ dq ^^ ")" ^^ nl ^^ "}" ^^ nl
       = before ^^ specRelationLines ManyToOne "User" (tpl (PStr "team")) target ^^ after.
Proof.
  intros decorator property classNode.
  apply (relation_field_in_model ManyToOne classNode property decorator
           "User" _ (PStr "team") []).
  - reflexivity.
  - simpl. right. left. reflexivity.
  - simpl. left. reflexivity.
  - reflexivity.
  - reflexivity.
Defined.

(** The four relations side by side in the model of an entity. *)
Example relations_of_an_entity :
  let relation d field target :=
    Node (ClassProperty (Some (TSTypeReference (Some target) []))) []
      [Sample.ident field; Sample.decorator d []] in
  entityModel
    (Sample.class "User" [Sample.decorator "Entity" []]
       [relation "OneToOne" "profile" "Profile";
        relation "ManyToOne" "team" "Team";
        relation "OneToMany" "posts" "Post";
        relation "ManyToMany" "groups" "Group"])
  = Ok (Some ("User",
         "model User {" ^^ nl
         ^^ "  profile Profile? @relation(" ^^ dq ^^ "UserToProfile" ^^ dq ^^ ")" ^^ nl
         ^^ "  team Team @relation(" ^^ dq ^^ "teamRelation" ^^ dq ^^ ")" ^^ nl
         ^^ "  teamId Int" ^^ nl
         ^^ "  posts Post[] @relation(" ^^ dq ^^ "postsRelation" ^^ dq ^^ ")" ^^ nl
         ^^ "  groups Group[] @relation(" ^^ dq ^^ "UserToGroup" ^^ dq ^^ ")" ^^ nl
         ^^ nl ^^ "  @@map(" ^^ dq ^^ "user" ^^ dq ^^ ")" ^^ nl ^^ "}" ^^ nl)).
Proof. reflexivity. Qed.

(* ------------------------------------------------------------------ *)
(** ** Passes over the tree *)
(* ------------------------------------------------------------------ *)

(** *** Lists of results *)

Lemma mapM_Forall2 {A B} (f : A -> result B) (l : list A) (r : list B) :
  mapM f l = Ok r -> Forall2 (fun x y => f x = Ok y) l r.
Proof.
  revert r. induction l as [|x l IH]; simpl; intros r H.
  - injection H as <-. constructor.
  - inv_bind H. inv_bind H. injection H as <-. constructor; auto.
Qed.

Lemma mapM_cons_inv {A B} (f : A -> result B) x l r :
  mapM f (x :: l) = Ok r ->
  exists y r', f x = Ok y /\ mapM f l = Ok r' /\ r = y :: r'.
Proof.
  simpl. intros H. inv_bind H. inv_bind H. injection H as <-. eauto.
Qed.

Lemma mapM_Thrown {A B} (f : A -> result B) l x :
  In x l -> f x = Thrown -> mapM f l = Thrown.
Proof.
  induction l as [|y l IH]; simpl; [intros []|].
  intros [-> | Hin] Hx.
  - rewrite Hx. reflexivity.
  - destruct (f y); [|reflexivity]. simpl. rewrite (IH Hin Hx). reflexivity.
Qed.

Lemma mapM_app {A B} (f : A -> result B) l1 l2 r1 r2 :
  mapM f l1 = Ok r1 -> mapM f l2 = Ok r2 -> mapM f (l1 ++ l2) = Ok (r1 ++ r2).
Proof.
  revert r1. induction l1 as [|x l1 IH]; simpl; intros r1 H1 H2.
  - injection H1 as <-. exact H2.
  - inv_bind H1. inv_bind H1. injection H1 as <-.
    rewrite Ha. simpl. rewrite (IH _ Ha0 H2). reflexivity.
Qed.

Lemma mapM_length {A B} (f : A -> result B) l r :
  mapM f l = Ok r -> length r = length l.
Proof.
  intros H. apply mapM_Forall2 in H. symmetry. eapply Forall2_length; eauto.
Qed.

Lemma fired_app {E} (a b : list E) : fired (a ++ b) = fired a || fired b.
Proof. destruct a; reflexivity. Qed.

(** *** Putting the visited children back *)

Lemma placeAll_app k r1 :
  forall i r2 l1 l2,
    placeAll k i r1 = Ok l1 ->
    placeAll k (i + length r1) r2 = Ok l2 ->
    placeAll k i (r1 ++ r2) = Ok (l1 ++ l2).
Proof.
  induction r1 as [|x r1 IH]; simpl; intros i r2 l1 l2 H1 H2.
  - injection H1 as <-. rewrite Nat.add_0_r in H2. exact H2.
  - inv_bind H1. inv_bind H1. injection H1 as <-.
    rewrite Ha. simpl.
    rewrite (IH (S i) r2 a0 l2 Ha0).
    + simpl. now rewrite app_assoc.
    + rewrite <- H2. f_equal. lia.
Qed.

Lemma placeAll_app_Thrown k r1 :
  forall i r2 l1,
    placeAll k i r1 = Ok l1 ->
    placeAll k (i + length r1) r2 = Thrown ->
    placeAll k i (r1 ++ r2) = Thrown.
Proof.
  induction r1 as [|x r1 IH]; simpl; intros i r2 l1 H1 H2.
  - rewrite Nat.add_0_r in H2. exact H2.
  - inv_bind H1. inv_bind H1. injection H1 as <-.
    rewrite Ha. simpl.
    rewrite (IH (S i) r2 a0 Ha0); [reflexivity|].
    rewrite <- H2. f_equal. lia.
Qed.

(** A child that comes back alone takes its place again, wherever it is. *)
Lemma placeAll_still k (l : list node) :
  forall i, placeAll k i (map (fun c => ([], c)) l) = Ok l.
Proof.
  induction l as [|x l IH]; simpl; intros i; [reflexivity|].
  rewrite IH. reflexivity.
Qed.

(** Where no child is an element of a list, every child has come back
    alone. *)
Lemma placeAll_fields k :
  (forall i, inList k i = false) ->
  forall r i l',
    placeAll k i r = Ok l' ->
    l' = map snd r /\ Forall (fun x => fst x = []) r.
Proof.
  intros Hk. induction r as [|[ins c] r IH]; simpl; intros i l' H.
  - injection H as <-. split; constructor.
  - rewrite Hk in H. destruct ins as [|y ins]; [|discriminate].
    simpl in H. inv_bind H. injection H as <-.
    destruct (IH _ _ Ha) as [-> Hr]. split; [reflexivity|].
    constructor; [reflexivity | exact Hr].
Qed.

Section Still.
Context {E : Type} (visit : context -> node -> result (list node * node * list E)).

Lemma still_children (l : list node) :
  map fst (map (fun c : node => (@nil node, c, @nil E)) l)
  = map (fun c => (@nil node, c)) l
  /\ concat (map snd (map (fun c : node => (@nil node, c, @nil E)) l)) = [].
Proof. induction l as [|x l [IH1 IH2]]; simpl; [auto|]. rewrite IH1, IH2. auto. Qed.

Lemma mapM_walk_still k (ctx : context) (l : list node) :
  Forall (fun c => reached k c = true ->
                   forall ctx, walk visit ctx c = Ok ([], c, [])) l ->
  mapM (fun c => if reached k c then walk visit (enter k ctx) c
                 else Ok ([], c, [])) l
  = Ok (map (fun c => ([], c, [])) l).
Proof.
  induction 1 as [|x l Hx Hl IH]; simpl; [reflexivity|].
  destruct (reached k x).
  - rewrite Hx by reflexivity. simpl. rewrite IH. reflexivity.
  - simpl. rewrite IH. reflexivity.
Qed.

(** The subnodes of a reached child are subnodes of the node. *)
Lemma Forall_below_child (P : node -> Prop) k l c :
  Forall P (flat_map (fun c => if reached k c then subnodes c else []) l) ->
  In c l -> reached k c = true -> Forall P (subnodes c).
Proof.
  intros H Hin Hr. rewrite Forall_forall in *. intros x Hx.
  apply H. apply in_flat_map. exists c. split; [exact Hin|].
  rewrite Hr. exact Hx.
Qed.

Lemma children_still k l :
  Forall (fun c => Forall (passesOver visit) (subnodes c) ->
                   forall ctx, walk visit ctx c = Ok ([], c, [])) l ->
  Forall (passesOver visit)
    (flat_map (fun c => if reached k c then subnodes c else []) l) ->
  Forall (fun c => reached k c = true ->
                   forall ctx, walk visit ctx c = Ok ([], c, [])) l.
Proof.
  intros IH Hl. rewrite Forall_forall in *. intros c Hc Hr.
  apply IH; [exact Hc|].
  apply (Forall_below_child _ k l c); auto.
  apply Forall_forall. exact Hl.
Qed.

(** A node is left alone, with everything below it, when every callback
    passes over it and over what a traversal reaches below it. *)
Lemma walk_still n :
  Forall (passesOver visit) (subnodes n) ->
  forall ctx, walk visit ctx n = Ok ([], n, []).
Proof.
  induction n as [k cs l IH] using node_ind'. intros Hall ctx.
  simpl in Hall. inversion Hall as [|? ? Hn Hl]; subst.
  simpl. rewrite mapM_walk_still by (apply children_still; assumption).
  simpl. destruct (still_children l) as [-> ->].
  rewrite placeAll_still. simpl. rewrite Hn. reflexivity.
Qed.

Lemma walk_still_list l :
  Forall (passesOver visit) (flat_map subnodes l) ->
  Forall (fun c => forall ctx, walk visit ctx c = Ok ([], c, [])) l.
Proof.
  intros H. apply Forall_forall. intros c Hc. apply walk_still.
  apply Forall_forall. intros x Hx. rewrite Forall_forall in H.
  apply H. apply in_flat_map. eauto.
Qed.

Lemma walkBelow_still n :
  Forall (passesOver visit) (below n) ->
  forall ctx, walkBelow visit ctx n = Ok (n, []).
Proof.
  destruct n as [k cs l]. simpl. intros Hl ctx.
  rewrite mapM_walk_still.
  - simpl. destruct (still_children l) as [-> ->].
    rewrite placeAll_still. reflexivity.
  - apply children_still; [|exact Hl].
    apply Forall_forall. intros c _. apply walk_still.
Qed.

(** The visit of a node below which the callback passes over everything is
    the callback on the node. *)
Lemma walk_at n :
  Forall (passesOver visit) (below n) ->
  forall ctx,
    walk visit ctx n = let? v := visit ctx n in Ok (fst v, snd v ++ []).
Proof.
  destruct n as [k cs l]. simpl. intros Hl ctx.
  rewrite mapM_walk_still.
  - simpl. destruct (still_children l) as [-> ->].
    rewrite placeAll_still. reflexivity.
  - apply children_still; [|exact Hl].
    apply Forall_forall. intros c _. apply walk_still.
Qed.

End Still.

Section Insert.
Context {E : Type} (visit : context -> node -> result (list node * node * list E)).
(** A visit that inserts nodes in front of a child [x] of a plain node:
    among the elements of the list of the node the nodes are inserted, in
    a field the pass throws. *)
Lemma walk_insert t f cs l1 x l2 ins x' log ctx :
  (forall cs' l', passesOver visit (Node (Other t f) cs' l')) ->
  Forall (passesOver visit) (flat_map subnodes l1) ->
  Forall (passesOver visit) (flat_map subnodes l2) ->
  walk visit ctx x = Ok (ins, x', log) ->
  ins <> [] ->
  walk visit ctx (Node (Other t f) cs (l1 ++ x :: l2))
  = if (f <=? length l1)%nat
    then Ok ([], Node (Other t f) cs (l1 ++ ins ++ x' :: l2), log)
    else Thrown.
Proof.
  intros Hparent H1 H2 Hx Hins.
  apply walk_still_list in H1. apply walk_still_list in H2.
  assert (Hstill : forall l,
            Forall (fun c => forall ctx, walk visit ctx c = Ok ([], c, [])) l ->
            mapM (fun c => walk visit ctx c) l
            = Ok (map (fun c => ([], c, [])) l)).
  { intros l Hl. apply (mapM_walk_still visit (Other t f) ctx l).
    apply Forall_forall. intros c Hc _. rewrite Forall_forall in Hl. auto. }
  simpl.
  rewrite (mapM_app _ l1 (x :: l2) _
             ((ins, x', log) :: map (fun c => ([], c, [])) l2) (Hstill _ H1)).
  2:{ simpl. rewrite Hx. simpl. rewrite (Hstill _ H2). reflexivity. }
  simpl. rewrite !map_app. simpl.
  destruct (still_children (E:=E) l1) as [-> E1].
  destruct (still_children (E:=E) l2) as [-> E2].
  rewrite concat_app. simpl. rewrite E1, E2. simpl. rewrite app_nil_r.
  destruct ins as [|i0 ins]; [congruence|].
  destruct (f <=? length l1)%nat eqn:Hf.
  - rewrite (placeAll_app _ _ _ _ l1 ((i0 :: ins) ++ x' :: l2) (placeAll_still _ _ _)).
    + simpl. rewrite Hparent. reflexivity.
    + simpl. rewrite length_map, Hf. simpl. rewrite placeAll_still. simpl.
      rewrite <- app_assoc. reflexivity.
  - rewrite (placeAll_app_Thrown _ _ _ _ l1 (placeAll_still _ _ _)); [reflexivity|].
    simpl. rewrite length_map, Hf. reflexivity.
Qed.
End Insert.

(* ------------------------------------------------------------------ *)
(** ** The pass over the calls *)
(* ------------------------------------------------------------------ *)

(** A case of the [switch] that returns has not touched the call: it is
    the case of [createQueryBuilder], which asks for its two comments, or
    no case at all.  The nine others throw. *)
Lemma rewriteMethod_Ok path m call ins call' :
  rewriteMethod path m call = Ok (ins, call') ->
  call' = call
  /\ (ins = [] \/ ins = [queryBuilderTodo; queryBuilderExample]).
Proof.
  unfold rewriteMethod.
  repeat match goal with
         | |- context [if ?b then _ else _] => destruct b; try discriminate
         end; intros [= <- <-]; auto.
Qed.

Lemma rewriteCall_Ok path call ins call' services :
  rewriteCall path call = Ok (ins, call', services) ->
  call' = call
  /\ (ins = [] \/ ins = [queryBuilderTodo; queryBuilderExample]).
Proof.
  unfold rewriteCall. intros H. inv_bind H. destruct a.
  - inv_bind H. inv_bind H. inv_bind H. injection H as E _. subst a1.
    apply rewriteMethod_Ok in Ha2. exact Ha2.
  - injection H as <- <- _. auto.
Qed.

Lemma visitCall_Ok ctx n ins n' log :
  visitCall ctx n = Ok (ins, n', log) ->
  n' = n /\ (ins = [] \/ ins = [queryBuilderTodo; queryBuilderExample]).
Proof.
  unfold visitCall. destruct (isCallExpression n).
  - intros H. inv_bind H. destruct a as [[i c'] services].
    injection H as <- <- _. apply rewriteCall_Ok in Ha. exact Ha.
  - intros [= <- <- _]. auto.
Qed.

(** A node that has left the pass, taken apart. *)
Lemma walk_visitCall_inv ctx k cs l ins n' log :
  walk visitCall ctx (Node k cs l) = Ok (ins, n', log) ->
  exists r l' own,
    mapM (fun c => if reached k c then walk visitCall (enter k ctx) c
                   else Ok ([], c, [])) l = Ok r
    /\ placeAll k 0 (map fst r) = Ok l'
    /\ visitCall ctx (Node k cs l') = Ok (ins, n', own)
    /\ n' = Node k cs l'.
Proof.
  simpl. intros H. inv_bind H. rename a into r. inv_bind H. rename a into l'.
  inv_bind H. destruct a as [[i m] own]. injection H as <- <- _.
  exists r, l', own. repeat split; try assumption.
  apply visitCall_Ok in Ha1. apply Ha1.
Qed.

Lemma walk_visitCall_kind ctx n ins n' log :
  walk visitCall ctx n = Ok (ins, n', log) ->
  kindOf n' = kindOf n
  /\ (ins = [] \/ ins = [queryBuilderTodo; queryBuilderExample]).
Proof.
  destruct n as [k cs l]. intros H.
  destruct (walk_visitCall_inv _ _ _ _ _ _ _ H) as (r & l' & own & _ & _ & Hv & ->).
  split; [reflexivity|]. apply visitCall_Ok in Hv. apply Hv.
Qed.

(** The children of a member expression are the values of its fields: they
    come back one for one. *)
Lemma walk_visitCall_member ctx cs l ins n' log :
  walk visitCall ctx (Node MemberExpression cs l) = Ok (ins, n', log) ->
  exists l',
    n' = Node MemberExpression cs l'
    /\ Forall2 (fun c c' => exists ins' log',
                  walk visitCall ctx c = Ok (ins', c', log')) l l'.
Proof.
  intros H.
  destruct (walk_visitCall_inv _ _ _ _ _ _ _ H) as (r & l' & own & Hr & Hp & _ & ->).
  exists l'. split; [reflexivity|].
  apply placeAll_fields in Hp; [|reflexivity]. destruct Hp as [-> _].
  apply mapM_Forall2 in Hr. simpl in Hr. clear H.
  induction Hr as [|c [[i c'] lg] l r Hc _ IH]; simpl; constructor; eauto.
Qed.

(** The callee of a call is the value of a field: it comes back alone. *)
Lemma walk_visitCall_callee ctx cs c args r l' :
  mapM (fun c => if reached CallExpression c
                 then walk visitCall (enter CallExpression ctx) c
                 else Ok ([], c, [])) (c :: args) = Ok r ->
  placeAll CallExpression 0 (map fst r) = Ok l' ->
  exists c' args' log',
    l' = c' :: args' /\ walk visitCall ctx c = Ok ([], c', log')
    /\ Node CallExpression cs l' = Node CallExpression cs (c' :: args').
Proof.
  intros Hr Hp. apply mapM_cons_inv in Hr.
  destruct Hr as ([[i c'] lg] & r' & Hc & _ & ->). simpl in Hc, Hp.
  destruct i as [|x i]; [|discriminate]. simpl in Hp. inv_bind Hp.
  injection Hp as <-. exists c', a, lg. repeat split. exact Hc.
Qed.

(** The shape of a call on a [repository] member of one of the nine
    methods that ask the resolver for the model. *)
Lemma isResolvedCall_inv n :
  isResolvedCall n = true ->
  exists cs ccs ocs o1 p ol2 pm cl3 args m,
    n = Node CallExpression cs
          (Node MemberExpression ccs
             (Node MemberExpression ocs (o1 :: p :: ol2) :: pm :: cl3) :: args)
    /\ name p = PStr "repository"
    /\ name pm = PStr m
    /\ JsString.mem m resolvedMethods = true.
Proof.
  unfold isResolvedCall, isRepositoryCallSite, isRepositoryCall, methodName.
  destruct n as [k cs l]. destruct k; try discriminate.
  destruct l as [|[ck ccs cl] args]; [discriminate|]. simpl.
  destruct ck; try discriminate. simpl.
  destruct cl as [|[ok ocs ol] cl]; [discriminate|]. simpl.
  destruct ok; try (simpl; discriminate). simpl.
  destruct ol as [|o1 [|p ol2]]; try discriminate. simpl.
  destruct cl as [|pm cl3]; simpl.
  { rewrite andb_false_r. discriminate. }
  intros H. apply andb_true_iff in H. destruct H as [Hp Hm].
  destruct (name p) as [|s| |] eqn:Np; try discriminate.
  simpl in Hp. destruct (s =? "repository") eqn:Hs; [|discriminate].
  apply String.eqb_eq in Hs. subst s.
  destruct (name pm) as [|m| |] eqn:Nm; try discriminate.
  exists cs, ccs, ocs, o1, p, ol2, pm, cl3, args, m. repeat split; auto.
Qed.

Lemma rewriteCall_resolved path cs ccs ocs o1 p ol2 pm cl3 args m :
  name p = PStr "repository" ->
  name pm = PStr m ->
  JsString.mem m resolvedMethods = true ->
  rewriteCall path
    (Node CallExpression cs
       (Node MemberExpression ccs
          (Node MemberExpression ocs (o1 :: p :: ol2) :: pm :: cl3) :: args))
  = Thrown.
Proof.
  intros Hp Hm Hmem. unfold rewriteCall, isRepositoryCall. simpl.
  rewrite Hp. simpl. rewrite Hm.
  unfold JsString.mem, resolvedMethods in Hmem. simpl in Hmem.
  repeat (apply orb_true_iff in Hmem; destruct Hmem as [Hmem | Hmem];
          [apply String.eqb_eq in Hmem; subst m; reflexivity|]).
  discriminate.
Qed.

(** The pass throws on a tree that holds such a call.  The callee of the
    call, its receiver and the two names are values of fields, which the
    pass below the call leaves in their places, so that the call is still
    what it was when its turn comes. *)
Lemma resolved_call_aborts_walk n :
  forall call,
    In call (subnodes n) -> isResolvedCall call = true ->
    forall ctx, walk visitCall ctx n = Thrown.
Proof.
  induction n as [k cs l IH] using node_ind'. intros call Hin Hres ctx.
  destruct (walk visitCall ctx (Node k cs l)) as [[[ins n'] log]|] eqn:Hw;
    [exfalso | reflexivity].
  destruct (walk_visitCall_inv _ _ _ _ _ _ _ Hw) as (r & l' & own & Hr & Hp & Hv & ->).
  simpl in Hin. destruct Hin as [<- | Hin].
  - destruct (isResolvedCall_inv _ Hres)
      as (cs0 & ccs & ocs & o1 & p & ol2 & pm & cl3 & args & m & E & Np & Nm & Hm).
    injection E as -> -> ->.
    destruct (walk_visitCall_callee _ cs0 _ _ _ _ Hr Hp)
      as (c' & args' & lg & -> & Hc & _).
    destruct (walk_visitCall_member _ _ _ _ _ _ Hc) as (cl' & -> & Hcl).
    inversion Hcl as [|o o' cl2 cl2' (io & lo & Ho) Hcl2]; subst.
    inversion Hcl2 as [|pm0 pm' cl4 cl4' (ipm & lpm & Hpm) _]; subst.
    destruct (walk_visitCall_member _ _ _ _ _ _ Ho) as (ol' & -> & Hol).
    inversion Hol as [|o1a o1' ol3 ol3' _ Hol3]; subst.
    inversion Hol3 as [|p0 p' ol4 ol4' (ip & lp & Hp') _]; subst.
    apply walk_visitCall_kind in Hpm, Hp'.
    unfold visitCall in Hv. simpl in Hv.
    rewrite rewriteCall_resolved with (m := m) in Hv; try assumption; try discriminate.
    + unfold name. destruct Hp' as [-> _]. exact Np.
    + unfold name. destruct Hpm as [-> _]. exact Nm.
  - apply in_flat_map in Hin. destruct Hin as (c & Hc & Hcall).
    destruct (reached k c) eqn:Hreach; [|destruct Hcall].
    rewrite Forall_forall in IH.
    rewrite (mapM_Thrown _ l c Hc) in Hr; [discriminate|].
    rewrite Hreach. apply (IH c Hc call Hcall Hres).
Qed.

(** The same for the pass as the stage runs it, below the root. *)
Lemma resolved_call_aborts_walkBelow rt call :
  In call (below rt) -> isResolvedCall call = true ->
  forall ctx, walkBelow visitCall ctx rt = Thrown.
Proof.
  destruct rt as [k cs l]. simpl. intros Hin Hres ctx.
  apply in_flat_map in Hin. destruct Hin as (c & Hc & Hcall).
  destruct (reached k c) eqn:Hreach; [|destruct Hcall].
  rewrite (mapM_Thrown _ l c Hc); [reflexivity|].
  rewrite Hreach. apply (resolved_call_aborts_walk c call Hcall Hres).
Qed.

(* ------------------------------------------------------------------ *)
(** ** The output assembler *)
(* ------------------------------------------------------------------ *)



(** A file whose one repository call is of a method outside the table goes
    through the stages with [services] set and its tree as it was. *)
Example unlisted_call_is_printed :
  let rt := Sample.userService
              (Sample.repositoryCall "query" [Sample.str "SELECT 1"]) in
  applyAll rt
  = Ok {| tree := rt;
          changed := {| entities := false; repositories := false;
                        modules := false; services := true |};
          prismaModels := [] |}.
Proof. reflexivity. Qed.

(** ** The [repositories] flag *)

Lemma transformEntityClasses_repositories st st' :
  transformEntityClasses st = Ok st' ->
  repositories (changed st') = repositories (changed st).
Proof.
  unfold transformEntityClasses. intros H. inv_bind H.
  destruct a as [t m]. injection H as <-. reflexivity.
Qed.

Lemma transformRepositoryUsage_repositories st st' :
  transformRepositoryUsage st = Ok st' ->
  repositories (changed st') = repositories (changed st).
Proof.
  unfold transformRepositoryUsage. intros H. inv_bind H.
  destruct a as [t1 l1]. inv_bind H. destruct a as [t2 l2].
  injection H as <-. reflexivity.
Qed.

Lemma transformModuleImports_repositories st st' :
  transformModuleImports st = Ok st' ->
  repositories (changed st') = repositories (changed st).
Proof.
  unfold transformModuleImports. intros H.
  inv_bind H. destruct a as [t1 ev].
  inv_bind H. destruct a as [t2 l2]. inv_bind H. destruct a as [t3 l3].
  injection H as <-. reflexivity.
Qed.

(** C10.  The [repositories] flag starts false, no stage changes it, so it
    is false when the stages are through and the choice between the
    original source and the printed tree rests on the three other flags. *)
Theorem repositories_flag_never_set (rt : node) (st : state) :
  applyAll rt = Ok st ->
  repositories (changed (initialState rt)) = false
  /\ repositories (changed st) = false
  /\ anyChanged (changed st)
     = entities (changed st) || modules (changed st) || services (changed st).
Proof.
  unfold applyAll. intros H. inv_bind H. rename a into s1. inv_bind H.
  rename a into s2.
  apply transformEntityClasses_repositories in Ha.
  apply transformRepositoryUsage_repositories in Ha0.
  apply transformModuleImports_repositories in H.
  assert (R : repositories (changed st) = false).
  { rewrite H, Ha0, Ha. reflexivity. }
  repeat split; [exact R|].
  unfold anyChanged. rewrite R.
  destruct (entities (changed st)); reflexivity.
Qed.

Lemma repositories_flag_never_set_witness :
  let rt := Sample.program
              [Sample.import ["Repository"; "In"] "typeorm";
               Sample.class "UserService" []
                 [Sample.method "run"
                    [Sample.statement (Sample.repositoryCall "query" [])]]] in
  let st := stateOf (applyAll rt) rt in
  repositories (changed (initialState rt)) = false
  /\ repositories (changed st) = false
  /\ anyChanged (changed st)
     = entities (changed st) || modules (changed st) || services (changed st).
Proof.
  intros rt st. apply (repositories_flag_never_set rt st). reflexivity.
Defined.

(* ------------------------------------------------------------------ *)
(** ** The call-site rewriter *)
(* ------------------------------------------------------------------ *)

(** The resolver never returns: its first statement throws. *)
Lemma getModelNameFromContext_throws path call :
  getModelNameFromContext path call = Thrown.
Proof. reflexivity. Qed.

(** C3, on failing inputs.  The two examples that the specification gives
    of the [save] heuristic, [this.repository.save({ id: 5, name: 'x' })]
    and [this.repository.save({ name: 'x' })]: the case starts by asking
    the resolver for the model, the resolver calls [path.ancestors], and
    the exception leaves the callback, the stage and the transform.  No
    comment is inserted and neither form is produced. *)
Theorem save_call_throws :
  let withId :=
    j.objectExpression
      [j.property (Sample.ident "id") (Sample.num "5");
       j.property (Sample.ident "name") (Sample.str "x")] in
  let withoutId :=
    j.objectExpression [j.property (Sample.ident "name") (Sample.str "x")] in
  (forall path, rewriteCall path (Sample.repositoryCall "save" [withId]) = Thrown)
  /\ (forall path, rewriteCall path (Sample.repositoryCall "save" [withoutId]) = Thrown)
  /\ applyAll (Sample.userService (Sample.repositoryCall "save" [withId])) = Thrown
  /\ applyAll (Sample.userService (Sample.repositoryCall "save" [withoutId])) = Thrown
  /\ forall toSource source,
       transform (fun _ => Ok (Sample.userService (Sample.repositoryCall "save" [withId])))
         toSource source = Thrown.
Proof. repeat split. Qed.

(** C5, on a failing input.  What [transformFindOneArguments] does with
    [this.repository.findOne({ ...criteria })]: the object literal has no
    [where] key, and the search for one reads the key of the spread element,
    which has none; the exception leaves the callback, the stage and the
    transform. *)
Theorem findOne_with_spread_throws :
  let call :=
    Sample.repositoryCall "findOne"
      [j.objectExpression [Sample.spread (Sample.ident "criteria")]] in
  transformFindOneArguments (arguments call) = Thrown
  /\ rewriteCall Sample.inUserService call = Thrown
  /\ applyAll (Sample.userService call) = Thrown
  /\ forall toSource source,
       transform (fun _ => Ok (Sample.userService call)) toSource source = Thrown.
Proof. repeat split. Qed.

(** C6, on failing inputs.  [this.repository.delete(1)], the example of the
    specification, and [this.repository.remove(user)]: the case starts by
    asking the resolver for the model, which throws, so the method is not
    renamed and [transformDeleteArguments] is not reached. *)
Theorem delete_call_throws :
  let byId := Sample.repositoryCall "delete" [Sample.num "1"] in
  let byEntity := Sample.repositoryCall "remove" [Sample.ident "user"] in
  (forall path, rewriteCall path byId = Thrown)
  /\ (forall path, rewriteCall path byEntity = Thrown)
  /\ applyAll (Sample.userService byId) = Thrown
  /\ applyAll (Sample.userService byEntity) = Thrown
  /\ forall toSource source,
       transform (fun _ => Ok (Sample.userService byId)) toSource source = Thrown.
Proof. repeat split. Qed.

(** C7, on failing inputs.  The query builder chain of the example that the
    case itself inserts, [this.repository.createQueryBuilder('user').getMany()]:
    the callback leaves the call as it is and asks for the two comments to
    be inserted in front of it, but the call is the [object] of a member
    expression, not an element of a list, so [insertBefore] throws and the
    transform with it.  The same happens to the call as a statement of its
    own. *)
Theorem createQueryBuilder_in_chain_throws :
  let site := Sample.repositoryCall "createQueryBuilder" [Sample.str "user"] in
  let chain := Sample.call (j.memberExpression site (Sample.ident "getMany")) [] in
  (forall path,
     rewriteCall path site = Ok ([queryBuilderTodo; queryBuilderExample], site, true))
  /\ (forall path, walk visitCall path chain = Thrown)
  /\ applyAll (Sample.userService chain) = Thrown
  /\ applyAll (Sample.userService site) = Thrown
  /\ forall toSource source,
       transform (fun _ => Ok (Sample.userService chain)) toSource source = Thrown.
Proof. repeat split. Qed.

(** C9, on failing inputs.  A call of any of the nine methods of the table
    that ask the resolver for the model throws before the line that sets
    [fileChanged.services] is reached, whatever its arguments; a file with
    [this.repository.find()] is therefore not printed, nor returned: the
    transform throws. *)
Theorem listed_repository_call_throws :
  Forall (fun m => forall path args,
            rewriteCall path (Sample.repositoryCall m args) = Thrown)
         resolvedMethods
  /\ (let rt := Sample.userService (Sample.repositoryCall "find" []) in
      applyAll rt = Thrown
      /\ forall toSource source,
           transform (fun _ => Ok rt) toSource source = Thrown).
Proof.
  split; [|split; reflexivity].
  repeat constructor.
Qed.

(* ------------------------------------------------------------------ *)
(** ** The import rewriter and the [modules] flag *)
(* ------------------------------------------------------------------ *)

(** C8, on a failing input.  What the stage does with the one-line file
    [import { User } from './user.entity']: it puts the marker in front of
    the import and leaves [modules] unset, so that the transform hands back
    the original source, without the marker. *)
Theorem entity_import_marked_without_flag :
  let import := Node (ImportDeclaration [ImportSpecifier "User"] "./user.entity") [] [] in
  let rt := Sample.program [import] in
  transformModuleImports (initialState rt)
  = Ok {| tree := Sample.program [entityImportTodo; import];
          changed := unchanged;
          prismaModels := [] |}
  /\ forall toSource source,
       transform (fun _ => Ok rt) toSource source = Ok source.
Proof. split; reflexivity. Qed.

(** An import of [typeorm] without specifiers is removed, again with
    [modules] left unset. *)
Example empty_typeorm_import_removed_without_flag :
  let rt := Sample.program [Node (ImportDeclaration [] "typeorm") [] []] in
  transformModuleImports (initialState rt)
  = Ok {| tree := Sample.program []; changed := unchanged; prismaModels := [] |}.
Proof. reflexivity. Qed.

(** The sibling branches do set the flag. *)
Example repository_import_removed_with_flag :
  let rt := Sample.program
              [Node (ImportDeclaration [ImportSpecifier "X"] "typeorm/repository/Repository") [] []] in
  transformModuleImports (initialState rt)
  = Ok {| tree := Sample.program [];
          changed := setModules true unchanged;
          prismaModels := [] |}.
Proof. reflexivity. Qed.

(* ------------------------------------------------------------------ *)
(** ** Applying the pipeline twice *)
(* ------------------------------------------------------------------ *)

(** C2, on a failing input.  [import { Entity, Repository } from 'typeorm']:
    the filter for the schema decorators starts again from the specifiers
    as they were, so [Repository] is still imported in the output of the
    first application, next to the new import of [PrismaService].  Applied
    to that output, the transform finds the import of [Repository] again,
    puts a second import of [PrismaService] in front and removes the import
    of [typeorm].  The parser and the printer are any two that take the
    first output back to the tree it was printed from. *)
Theorem second_application_repeats_prisma_import
    (parse : string -> result node) (toSource : node -> result string)
    (source out1 out2 : string) :
  let rt0 := Sample.program [Sample.import ["Entity"; "Repository"] "typeorm"] in
  let rt1 := Sample.program [prismaServiceImport; Sample.import ["Repository"] "typeorm"] in
  let rt2 := Sample.program [prismaServiceImport; prismaServiceImport] in
  parse source = Ok rt0 ->
  toSource rt1 = Ok out1 ->
  parse out1 = Ok rt1 ->
  toSource rt2 = Ok out2 ->
  transform parse toSource source = Ok out1
  /\ transform parse toSource out1 = Ok out2
  /\ rt2 <> rt1
  /\ tree (stateOf (applyAll rt0) rt0) = rt1
  /\ tree (stateOf (applyAll rt1) rt1) = rt2.
Proof.
  intros rt0 rt1 rt2 H0 H1 H2 H3. unfold transform.
  rewrite H0, H2. simpl. split; [exact H1|]. split; [exact H3|].
  split; [discriminate|]. split; reflexivity.
Qed.

Lemma second_application_repeats_prisma_import_witness :
  let rt0 := Sample.program [Sample.import ["Entity"; "Repository"] "typeorm"] in
  let rt1 := Sample.program [prismaServiceImport; Sample.import ["Repository"] "typeorm"] in
  let rt2 := Sample.program [prismaServiceImport; prismaServiceImport] in
  let parse := fun s : string => if String.eqb s "first output" then Ok rt1 else Ok rt0 in
  let toSource := fun t : node =>
                    Ok (if existsb (importsFrom "typeorm") (childrenOf t)
                        then "first output" else "second output") in
  transform parse toSource "input" = Ok "first output"
  /\ transform parse toSource "first output" = Ok "second output"
  /\ rt2 <> rt1
  /\ tree (stateOf (applyAll rt0) rt0) = rt1
  /\ tree (stateOf (applyAll rt1) rt1) = rt2.
Proof.
  intros rt0 rt1 rt2 parse toSource.
  apply (second_application_repeats_prisma_import parse toSource
           "input" "first output" "second output"); reflexivity.
Defined.

(** X3.  The pass over the calls throws on every tree that holds, where a
    traversal reaches it, a call on a [repository] member of one of the
    nine methods [find], [findOne], [findOneBy], [findBy], [save],
    [update], [delete], [remove], [count]: each of these cases starts with
    the resolver, which calls [path.ancestors].  The stage throws with the
    pass when the pass over the constructors has left the tree as it
    was. *)
Theorem resolved_call_aborts_pass (st : state) (call : node) :
  In call (below (tree st)) ->
  isResolvedCall call = true ->
  (forall ctx, walkBelow visitCall ctx (tree st) = Thrown)
  /\ (Forall (passesOver visitConstructor) (below (tree st)) ->
      transformRepositoryUsage st = Thrown).
Proof.
  intros Hin Hres. split.
  - apply (resolved_call_aborts_walkBelow _ call Hin Hres).
  - intros Hc. unfold transformRepositoryUsage.
    rewrite (walkBelow_still _ _ Hc). simpl.
    rewrite (resolved_call_aborts_walkBelow _ call Hin Hres). reflexivity.
Qed.

Lemma resolved_call_aborts_pass_witness :
  let call :=
    Sample.repositoryCall "findOneBy"
      [j.objectExpression [j.property (Sample.ident "id") (Sample.num "1")]] in
  let st := initialState (Sample.userService call) in
  (forall ctx, walkBelow visitCall ctx (tree st) = Thrown)
  /\ (Forall (passesOver visitConstructor) (below (tree st)) ->
      transformRepositoryUsage st = Thrown).
Proof.
  intros call st. apply (resolved_call_aborts_pass st call).
  - simpl. do 6 right. left. reflexivity.
  - reflexivity.
Defined.

(** A call on a [repository] member, taken apart. *)
Lemma callee_inv call c :
  callee call = Some c ->
  exists cs args, call = Node CallExpression cs (c :: args).
Proof.
  destruct call as [k cs l]. destruct k; try discriminate.
  destruct l as [|c0 args]; [discriminate|]. intros [= ->]. eauto.
Qed.

Lemma rewriteCall_unlisted path call c p :
  isRepositoryCall call = Ok true ->
  callee call = Some c -> property c = Some p ->
  inRuleTable (name p) = false ->
  rewriteCall path call = Ok ([], call, true).
Proof.
  intros Hrepo Hc Hp Hn. unfold rewriteCall. rewrite Hrepo. simpl.
  rewrite Hc. simpl. rewrite Hp. simpl.
  unfold rewriteMethod. unfold inRuleTable in Hn.
  destruct (name p) as [|m| |]; try reflexivity.
  unfold JsString.mem, ruleTable in Hn. simpl in Hn. simpl.
  repeat (apply orb_false_iff in Hn;
          let E := fresh "E" in destruct Hn as [E Hn]; rewrite ?E; clear E).
  reflexivity.
Qed.

(** X4.  A call on a [repository] member whose method is not in the table
    is left as it is, nothing is inserted, and [fileChanged.services] is
    set all the same; the pass leaves the call with that record when it
    passes over what is below it. *)
Theorem unlisted_method_recorded (path : context) (call c p : node) :
  isRepositoryCall call = Ok true ->
  callee call = Some c -> property c = Some p ->
  inRuleTable (name p) = false ->
  rewriteCall path call = Ok ([], call, true)
  /\ (Forall (passesOver visitCall) (below call) ->
      walk visitCall path call = Ok ([], call, [tt])).
Proof.
  intros Hrepo Hc Hp Hn.
  pose proof (rewriteCall_unlisted path call c p Hrepo Hc Hp Hn) as Hr.
  split; [exact Hr|]. intros Hb. rewrite (walk_at _ _ Hb).
  assert (Hcall : isCallExpression call = true)
    by (destruct (callee_inv _ _ Hc) as (cs & args & ->); reflexivity).
  unfold visitCall. rewrite Hcall. rewrite Hr. reflexivity.
Qed.

Lemma unlisted_method_recorded_witness :
  let c := j.memberExpression
             (j.memberExpression j.thisExpression (Sample.ident "repository"))
             (Sample.ident "query") in
  let call := Sample.call c [Sample.str "SELECT 1"] in
  rewriteCall Sample.inUserService call = Ok ([], call, true)
  /\ (Forall (passesOver visitCall) (below call) ->
      walk visitCall Sample.inUserService call = Ok ([], call, [tt])).
Proof.
  intros c call.
  apply (unlisted_method_recorded Sample.inUserService call c (Sample.ident "query"));
    reflexivity.
Defined.

Lemma visitCall_queryBuilder ctx site :
  isQueryBuilderCall site = true ->
  visitCall ctx site = Ok ([queryBuilderTodo; queryBuilderExample], site, [tt]).
Proof.
  unfold isQueryBuilderCall, isRepositoryCallSite, methodName. intros H.
  apply andb_true_iff in H. destruct H as [Hrepo Hm].
  destruct (isRepositoryCall site) as [[|]|] eqn:Hr; try discriminate.
  destruct (callee site) as [c|] eqn:Hc; [|discriminate].
  destruct (property c) as [p|] eqn:Hp; [|discriminate].
  assert (Hcall : isCallExpression site = true)
    by (destruct (callee_inv _ _ Hc) as (cs & args & ->); reflexivity).
  unfold visitCall. rewrite Hcall.
  unfold rewriteCall. rewrite Hr. simpl bind. rewrite Hc. simpl bind.
  rewrite Hp. simpl bind.
  destruct (name p) as [|m| |]; try discriminate.
  simpl in Hm. apply String.eqb_eq in Hm. subst m. reflexivity.
Qed.

Lemma visitCall_Other t f cs l : passesOver visitCall (Node (Other t f) cs l).
Proof. intros ctx. reflexivity. Qed.

(** X5.  A [createQueryBuilder] call on a [repository] member that is a
    child of a plain node (a statement, an array, an [await]): where the
    call is an element of the list of that node, the pass puts the two
    comment nodes in front of it in the list and leaves the call as it
    was; where the call is the value of a field, the pass throws. *)
Theorem createQueryBuilder_marked_or_thrown (ctx : context)
    (t : string) (f : nat) (cs : list comment) (l1 l2 : list node) (site : node) :
  isQueryBuilderCall site = true ->
  Forall (passesOver visitCall) (below site) ->
  Forall (passesOver visitCall) (flat_map subnodes l1) ->
  Forall (passesOver visitCall) (flat_map subnodes l2) ->
  walk visitCall ctx (Node (Other t f) cs (l1 ++ site :: l2))
  = if (f <=? length l1)%nat
    then Ok ([], Node (Other t f) cs
                   (l1 ++ queryBuilderTodo :: queryBuilderExample :: site :: l2),
             [tt])
    else Thrown.
Proof.
  intros Hq Hb H1 H2.
  apply (walk_insert visitCall t f cs l1 site l2
           [queryBuilderTodo; queryBuilderExample] site [tt] ctx
           (visitCall_Other t f) H1 H2); [|discriminate].
  rewrite (walk_at _ _ Hb). rewrite (visitCall_queryBuilder _ _ Hq). reflexivity.
Qed.

Lemma createQueryBuilder_marked_or_thrown_witness :
  let site := Sample.repositoryCall "createQueryBuilder" [Sample.str "user"] in
  walk visitCall Sample.inUserService
    (Node (Other "ArrayExpression" 0) [] ([Sample.ident "a"] ++ site :: []))
  = if (0 <=? length [Sample.ident "a"])%nat
    then Ok ([], Node (Other "ArrayExpression" 0) []
                   ([Sample.ident "a"]
                    ++ queryBuilderTodo :: queryBuilderExample :: site :: []),
             [tt])
    else Thrown.
Proof.
  intros site.
  apply (createQueryBuilder_marked_or_thrown Sample.inUserService
           "ArrayExpression" 0 [] [Sample.ident "a"] [] site).
  - reflexivity.
  - repeat constructor.
  - repeat constructor.
  - constructor.
Defined.

(** The value of a field: [await this.repository.createQueryBuilder('user')]. *)
Example createQueryBuilder_awaited_throws :
  walk visitCall Sample.inUserService
    (Node (Other "AwaitExpression" 1) []
       [Sample.repositoryCall "createQueryBuilder" [Sample.str "user"]])
  = Thrown.
Proof. reflexivity. Qed.

(** X12.  The pass over the calls never changes the kind of a node: what
    was a call leaves the pass as a call, and every other node leaves it
    with the kind it had.  What it inserts in front of a node is nothing,
    or the two comments of a [createQueryBuilder] site. *)
Theorem call_pass_preserves_kind (ctx : context) (n n' : node)
    (ins : list node) (log : list unit) :
  walk visitCall ctx n = Ok (ins, n', log) ->
  kindOf n' = kindOf n
  /\ (ins = [] \/ ins = [queryBuilderTodo; queryBuilderExample]).
Proof. apply walk_visitCall_kind. Qed.

Lemma call_pass_preserves_kind_witness :
  let site := Sample.repositoryCall "createQueryBuilder" [Sample.str "user"] in
  let n := Sample.call (Sample.ident "run") [site] in
  let n' := Sample.call (Sample.ident "run")
              [queryBuilderTodo; queryBuilderExample; site] in
  kindOf n' = kindOf n
  /\ (@nil node = [] \/ @nil node = [queryBuilderTodo; queryBuilderExample]).
Proof.
  intros site n n'.
  apply (call_pass_preserves_kind Sample.inUserService n n' [] [tt]). reflexivity.
Defined.

(* ------------------------------------------------------------------ *)
(** ** The helpers of the call-site rewriter *)
(* ------------------------------------------------------------------ *)

(** X6.  [transformDeleteArguments], called on an argument list: a first
    argument that is a numeric literal, a string literal or an identifier
    becomes [{where: {id: arg}}], an object literal becomes [{where: arg}],
    any other first argument and every later argument stay as they are. *)
Theorem transformDeleteArguments_shapes (firstArg : node) (rest : list node) :
  transformDeleteArguments [] = []
  /\ ((isIdentifier firstArg = true
       \/ (exists t, kindOf firstArg = NumericLiteral t)
       \/ (exists s, kindOf firstArg = StringLiteral s)) ->
      transformDeleteArguments (firstArg :: rest)
      = Node ObjectExpression []
          [Node Property []
             [j.identifier "where";
              Node ObjectExpression []
                [Node Property [] [j.identifier "id"; firstArg]]]]
        :: rest)
  /\ (isObjectExpression firstArg = true ->
      transformDeleteArguments (firstArg :: rest)
      = Node ObjectExpression []
          [Node Property [] [j.identifier "where"; firstArg]]
        :: rest)
  /\ (isIdentifier firstArg = false ->
      (forall t, kindOf firstArg <> NumericLiteral t) ->
      (forall s, kindOf firstArg <> StringLiteral s) ->
      isObjectExpression firstArg = false ->
      transformDeleteArguments (firstArg :: rest) = firstArg :: rest).
Proof.
  unfold transformDeleteArguments, isIdentifier, isObjectExpression.
  split; [reflexivity|]. split; [|split].
  - intros [H | [[t H] | [s H]]].
    + destruct (kindOf firstArg); try discriminate; reflexivity.
    + rewrite H. reflexivity.
    + rewrite H. reflexivity.
  - intros H. destruct (kindOf firstArg); try discriminate; reflexivity.
  - intros Hi Hn Hs Ho.
    destruct (kindOf firstArg); try reflexivity; try discriminate.
    + exfalso. eapply Hs. reflexivity.
    + exfalso. eapply Hn. reflexivity.
Qed.

(** *** Array methods whose callback does not throw *)

Section Pure.
Context {A : Type} (f : A -> result bool) (g : A -> bool) (ok : A -> bool).
Hypothesis f_pure : forall x, ok x = true -> f x = Ok (g x).

Lemma findM_pure l : forallb ok l = true -> findM f l = Ok (List.find g l).
Proof.
  induction l as [|x l IH]; simpl; [reflexivity|]. intros H.
  apply andb_true_iff in H. destruct H as [Hx Hl].
  rewrite (f_pure _ Hx). simpl. destruct (g x); [reflexivity | auto].
Qed.

Lemma someM_pure l : forallb ok l = true -> someM f l = Ok (existsb g l).
Proof.
  intros H. unfold someM. rewrite (findM_pure _ H). simpl. f_equal.
  clear H. induction l as [|x l IH]; simpl; [reflexivity|].
  destruct (g x); [reflexivity | exact IH].
Qed.

Lemma filterM_pure l : forallb ok l = true -> filterM f l = Ok (filter g l).
Proof.
  induction l as [|x l IH]; simpl; [reflexivity|]. intros H.
  apply andb_true_iff in H. destruct H as [Hx Hl].
  rewrite (f_pure _ Hx). simpl. rewrite (IH Hl). simpl. reflexivity.
Qed.

(** [findIndex] finds the place where [find] finds the element. *)
Lemma findIndexM_pure l :
  forallb ok l = true ->
  match List.find g l with
  | Some x =>
      exists i, findIndexM f l = Ok (Some i) /\ nth_error l i = Some x
                /\ g x = true
                /\ (forall h, updateAt i h l = updateFirst g h l)
  | None => findIndexM f l = Ok None
  end.
Proof.
  induction l as [|x l IH]; simpl; [reflexivity|]. intros H.
  apply andb_true_iff in H. destruct H as [Hx Hl].
  rewrite (f_pure _ Hx). simpl. destruct (g x) eqn:Hg.
  - exists 0%nat. repeat split; try reflexivity; assumption.
  - specialize (IH Hl). destruct (List.find g l) as [y|].
    + destruct IH as (i & Hi & Hn & Hgy & Hu). exists (S i).
      rewrite Hi. simpl. repeat split; try assumption.
      intros h. rewrite Hu. reflexivity.
    + rewrite IH. reflexivity.
Qed.
End Pure.

(** *** The tests on a property *)

Lemma isKeyed_inv p :
  isKeyed p = true -> exists k v, key p = Some k /\ propValue p = Some v.
Proof.
  unfold isKeyed. destruct (key p), (propValue p); try discriminate. eauto.
Qed.

Lemma keyIs_keyed s p : isKeyed p = true -> keyIs s p = Ok (labelled s p).
Proof.
  intros H. destruct (isKeyed_inv _ H) as (k & v & Hk & _).
  unfold keyIs, keyName, keyValue, labelled. rewrite Hk. simpl.
  destruct (isStr s (name k)); reflexivity.
Qed.

Lemma isOption_keyed p : isKeyed p = true -> isOption p = Ok (isOptionProperty p).
Proof.
  intros H. destruct (isKeyed_inv _ H) as (k & v & Hk & _).
  unfold isOption, keyLabel, keyName, keyValue, isOptionProperty. rewrite Hk. simpl.
  destruct (truthy (name k)); reflexivity.
Qed.

Lemma isCriterion_keyed p :
  isKeyed p = true -> isCriterion p = Ok (negb (isOptionProperty p)).
Proof. intros H. unfold isCriterion. rewrite (isOption_keyed _ H). reflexivity. Qed.

(** *** [findOne] *)

Lemma renameFirst_none f l : List.find f l = None -> renameFirst f l = l.
Proof.
  unfold renameFirst. induction l as [|x l IH]; simpl; [reflexivity|].
  destruct (f x); [discriminate|]. intros H. now rewrite IH.
Qed.

Lemma transformRelationsToInclude_keyed cs props :
  forallb isKeyed props = true ->
  transformRelationsToInclude (Node ObjectExpression cs props)
  = Ok (Node ObjectExpression cs (renameFirst (labelled "relations") props)).
Proof.
  intros H. unfold transformRelationsToInclude.
  pose proof (findIndexM_pure (keyIs "relations") (labelled "relations") isKeyed
                (keyIs_keyed "relations") props H) as Hi.
  destruct (List.find (labelled "relations") props) as [p|] eqn:Hf.
  - destruct Hi as (i & -> & Hn & _ & Hu). simpl.
    rewrite (nth_error_nth _ _ _ Hn).
    assert (Hp : isKeyed p = true).
    { rewrite forallb_forall in H. apply H. eapply nth_error_In; eauto. }
    destruct (isKeyed_inv _ Hp) as (k & v & _ & ->). simpl.
    rewrite Hu. reflexivity.
  - rewrite Hi. simpl. rewrite (renameFirst_none _ _ Hf). reflexivity.
Qed.

Lemma renameFirst_app f l w :
  f w = false -> renameFirst f (l ++ [w]) = renameFirst f l ++ [w].
Proof.
  intros Hw. unfold renameFirst. induction l as [|x l IH]; simpl.
  - rewrite Hw. reflexivity.
  - destruct (f x); [reflexivity | now rewrite IH].
Qed.

Lemma filter_all_kept (g : node -> bool) l :
  filter (fun p => negb (g p)) l = [] -> filter g l = l.
Proof.
  induction l as [|x l IH]; simpl; [reflexivity|].
  destruct (g x); simpl; [intros H; now rewrite IH | discriminate].
Qed.

Lemma forallb_filter {A} (f g : A -> bool) l :
  forallb f l = true -> forallb f (filter g l) = true.
Proof.
  induction l as [|x l IH]; simpl; [reflexivity|]. intros H.
  apply andb_true_iff in H. destruct H as [Hx Hl].
  destruct (g x); simpl; [rewrite Hx|]; auto.
Qed.

Lemma find_none_existsb {A} (f : A -> bool) l :
  existsb f l = false -> List.find f l = None.
Proof.
  induction l as [|x l IH]; simpl; [reflexivity|].
  destruct (f x); [discriminate | exact IH].
Qed.

Lemma transformFindOneArguments_keyed cs props rest :
  forallb isKeyed props = true ->
  existsb (labelled "where") props = false ->
  transformFindOneArguments (Node ObjectExpression cs props :: rest)
  = Ok (specFindOneArgument cs props :: rest).
Proof.
  intros Hk Hw. unfold transformFindOneArguments, specFindOneArgument.
  rewrite (findM_pure _ _ _ (keyIs_keyed "where") _ Hk).
  rewrite (find_none_existsb _ _ Hw).
  cbn -[transformRelationsToInclude renameFirst filterM].
  rewrite (filterM_pure _ _ _ isCriterion_keyed _ Hk).
  cbn -[transformRelationsToInclude renameFirst filterM].
  destruct (filter (fun p => negb (isOptionProperty p)) props) as [|c criteria] eqn:Hc.
  - cbn -[transformRelationsToInclude renameFirst filterM].
    rewrite (transformRelationsToInclude_keyed _ _ Hk).
    rewrite (filter_all_kept _ _ Hc), app_nil_r. reflexivity.
  - rewrite (filterM_pure _ _ _ isOption_keyed _ Hk).
    cbn -[transformRelationsToInclude renameFirst filterM].
    rewrite transformRelationsToInclude_keyed.
    + rewrite renameFirst_app by reflexivity. reflexivity.
    + rewrite forallb_app. rewrite (forallb_filter _ _ _ Hk). reflexivity.
Qed.

(** X7.  [transformFindOneArguments], called on an argument list whose
    first argument is an object literal made of properties with a key and
    a value.  Without a property keyed [where], the properties keyed
    otherwise than by an option name move under a new [where] property
    put last, and the option properties stay; with one, the properties
    keep their places.  Either way the first property keyed [relations]
    gets the key [include], and the later arguments stay. *)
Theorem transformFindOneArguments_of_properties
    (cs : list comment) (props rest : list node) :
  forallb isKeyed props = true ->
  transformFindOneArguments (Node ObjectExpression cs props :: rest)
  = Ok ((if existsb (labelled "where") props
         then Node ObjectExpression cs (renameFirst (labelled "relations") props)
         else specFindOneArgument cs props) :: rest).
Proof.
  intros Hk. destruct (existsb (labelled "where") props) eqn:Hw.
  - unfold transformFindOneArguments.
    rewrite (findM_pure _ _ _ (keyIs_keyed "where") _ Hk).
    destruct (List.find (labelled "where") props) eqn:Hf.
    + cbn -[transformRelationsToInclude renameFirst].
      rewrite (transformRelationsToInclude_keyed _ _ Hk). reflexivity.
    + exfalso. apply existsb_exists in Hw. destruct Hw as (x & Hx & Hlx).
      apply (find_none _ _ Hf) in Hx. congruence.
  - apply (transformFindOneArguments_keyed cs props rest Hk Hw).
Qed.

Lemma transformFindOneArguments_of_properties_witness :
  let props := [j.property (Sample.ident "id") (Sample.num "1");
                j.property (Sample.ident "relations") (j.objectExpression [])] in
  transformFindOneArguments (Node ObjectExpression [] props :: [Sample.ident "x"])
  = Ok ((if existsb (labelled "where") props
         then Node ObjectExpression [] (renameFirst (labelled "relations") props)
         else specFindOneArgument [] props) :: [Sample.ident "x"]).
Proof.
  intros props.
  apply (transformFindOneArguments_of_properties [] props [Sample.ident "x"]).
  reflexivity.
Defined.

(* ------------------------------------------------------------------ *)
(** ** The mapping tables and the type of a property *)
(* ------------------------------------------------------------------ *)

Lemma lower_idempotent c : JsString.lower (JsString.lower c) = JsString.lower c.
Proof.
  destruct c as [b0 b1 b2 b3 b4 b5 b6 b7].
  destruct b0, b1, b2, b3, b4, b5, b6, b7; reflexivity.
Qed.

Lemma toLowerCase_idempotent s :
  JsString.toLowerCase (JsString.toLowerCase s) = JsString.toLowerCase s.
Proof.
  induction s as [|c s IH]; simpl; [reflexivity|].
  now rewrite lower_idempotent, IH.
Qed.

(** X1.  The type lookup does not throw on a string and does not tell apart
    two spellings of a column type that differ in case only; a name the
    table does not hold gives [String]. *)
Theorem mapTypeOrmTypeToPrisma_ignores_case (s1 s2 : string) :
  JsString.toLowerCase s1 = JsString.toLowerCase s2 ->
  exists t,
    mapTypeOrmTypeToPrisma (PStr s1) = Ok t
    /\ mapTypeOrmTypeToPrisma (PStr s2) = Ok t
    /\ mapTypeOrmTypeToPrisma (PStr (JsString.toLowerCase s1)) = Ok t
    /\ (lookup (JsString.toLowerCase s1) typeormToPrismaTypeMap = None ->
        t = "String").
Proof.
  intros H. unfold mapTypeOrmTypeToPrisma.
  rewrite toLowerCase_idempotent, <- H.
  destruct (lookup (JsString.toLowerCase s1) typeormToPrismaTypeMap) as [t|].
  - exists t. repeat split. discriminate.
  - exists "String". repeat split.
Qed.

Lemma mapTypeOrmTypeToPrisma_ignores_case_witness :
  exists t,
    mapTypeOrmTypeToPrisma (PStr "VarChar") = Ok t
    /\ mapTypeOrmTypeToPrisma (PStr "VARCHAR") = Ok t
    /\ mapTypeOrmTypeToPrisma (PStr (JsString.toLowerCase "VarChar")) = Ok t
    /\ (lookup (JsString.toLowerCase "VarChar") typeormToPrismaTypeMap = None ->
        t = "String").
Proof.
  apply (mapTypeOrmTypeToPrisma_ignores_case "VarChar" "VARCHAR"). reflexivity.
Defined.

Ltac split_matches :=
  repeat match goal with
         | |- context [match ?x with _ => _ end] => destruct x
         end.

(** X2.  Reading the type of a property throws in one case only: when the
    annotation is a reference to a qualified name, whose [name] is
    undefined and reaches [toLowerCase]. *)
Theorem extractTypeFromProperty_throws_iff (property : node) :
  extractTypeFromProperty property = Thrown
  <-> exists ps, kindOf property = ClassProperty (Some (TSTypeReference None ps)).
Proof.
  unfold extractTypeFromProperty. split.
  - destruct (kindOf property) eqn:K; try discriminate.
    destruct typeAnnotation as [t|]; try discriminate.
    destruct t as [| | |tn ps|]; try discriminate.
    destruct tn as [s|]; [|eauto].
    unfold mapTypeOrmTypeToPrisma, typeName.
    split_matches; discriminate.
  - intros [ps ->]. reflexivity.
Qed.

(* ------------------------------------------------------------------ *)
(** ** The constructor parameters *)
(* ------------------------------------------------------------------ *)

Lemma injectPrisma_cases p p' b :
  injectPrisma p = Ok (p', b) ->
  (p' = p /\ b = false) \/ (p' = prismaParameter /\ b = true).
Proof.
  unfold injectPrisma. intros H.
  destruct (kindOf p); try (injection H as <- <-; auto; fail).
  inv_bind H.
  repeat match type of H with
         | context [match ?x with _ => _ end] => destruct x
         end;
    injection H as <- <-; auto.
Qed.

Lemma injectPrisma_quiet p p' : injectPrisma p = Ok (p', false) -> p' = p.
Proof.
  intros H. destruct (injectPrisma_cases _ _ _ H) as [[-> _] | [_ ?]];
    [reflexivity | discriminate].
Qed.

Lemma injectPrisma_again p p' b :
  injectPrisma p = Ok (p', b) -> injectPrisma p' = Ok (p', false).
Proof.
  intros H. destruct (injectPrisma_cases _ _ _ H) as [[-> ->] | [-> _]];
    [exact H | reflexivity].
Qed.

Lemma mapM_injectPrisma_quiet ps r :
  mapM injectPrisma ps = Ok r -> existsb snd r = false -> map fst r = ps.
Proof.
  intros H. apply mapM_Forall2 in H.
  induction H as [|x y l r Hxy Hlr IHlr]; simpl; intros Hex; [reflexivity|].
  apply orb_false_iff in Hex. destruct Hex as [Hy Hr].
  destruct y as [y b]. simpl in *. subst b.
  f_equal; [apply injectPrisma_quiet; exact Hxy | apply IHlr; exact Hr].
Qed.

Lemma setValue_propValue m v : propValue m = Some v -> setValue v m = m.
Proof.
  destruct m as [k cs [|key [|v0 l]]]; destruct k; try discriminate;
    intros [= ->]; reflexivity.
Qed.

Lemma setParams_params v ps : params v = Some ps -> setParams ps v = v.
Proof.
  destruct v as [k cs [|b l]]; destruct k; try discriminate;
    intros [= ->]; reflexivity.
Qed.

Lemma rewriteConstructor_quiet m m' :
  rewriteConstructor m = Ok (m', false) -> m' = m.
Proof.
  unfold rewriteConstructor. intros H.
  inv_bind H. rename a into v. inv_bind H. rename a into ps.
  inv_bind H. rename a into r. injection H as <- Hex.
  rewrite (mapM_injectPrisma_quiet _ _ Ha1 Hex).
  rewrite (setParams_params _ _ (deref_Ok _ _ Ha0)).
  apply setValue_propValue, deref_Ok, Ha.
Qed.

Lemma mapM_injectPrisma_again ps r :
  mapM injectPrisma ps = Ok r ->
  mapM injectPrisma (map fst r) = Ok (map (fun p => (p, false)) (map fst r)).
Proof.
  intros H. apply mapM_Forall2 in H.
  induction H as [|x y l r Hxy Hlr IH]; simpl; [reflexivity|].
  destruct y as [y b]. simpl.
  rewrite (injectPrisma_again _ _ _ Hxy). simpl. rewrite IH. reflexivity.
Qed.
Lemma map_fst_unflagged (l : list node) :
  map fst (map (fun p : node => (p, false)) l) = l
  /\ existsb snd (map (fun p : node => (p, false)) l) = false.
Proof. induction l as [|x l [IH1 IH2]]; simpl; [auto|]. rewrite IH1, IH2. auto. Qed.

(** X13.  Rewriting a constructor keeps the number of its parameters, and
    it is done once and for all: on the constructor it has produced, the
    rewrite changes nothing and reports no repository parameter. *)
Theorem rewriteConstructor_once (n n' : node) (b : bool) :
  rewriteConstructor n = Ok (n', b) ->
  rewriteConstructor n' = Ok (n', false)
  /\ exists v v' ps ps',
       propValue n = Some v /\ params v = Some ps
       /\ propValue n' = Some v' /\ params v' = Some ps'
       /\ length ps' = length ps.
Proof.
  unfold rewriteConstructor. intros H.
  inv_bind H. rename a into v. inv_bind H. rename a into ps.
  inv_bind H. rename a into r. injection H as <- _.
  apply deref_Ok in Ha, Ha0.
  assert (Hv : propValue (setValue (setParams (map fst r) v) n)
               = Some (setParams (map fst r) v)).
  { destruct n as [k cs [|key [|v0 l]]]; destruct k; try discriminate; reflexivity. }
  assert (Hps : params (setParams (map fst r) v) = Some (map fst r)).
  { destruct v as [k cs [|b0 l]]; destruct k; try discriminate; reflexivity. }
  split.
  - rewrite Hv. simpl. rewrite Hps. simpl.
    rewrite (mapM_injectPrisma_again _ _ Ha1). simpl.
    destruct (map_fst_unflagged (map fst r)) as [-> ->].
    f_equal. f_equal.
    rewrite (setParams_params _ _ Hps).
    apply setValue_propValue. exact Hv.
  - exists v, (setParams (map fst r) v), ps, (map fst r).
    repeat split; try assumption.
    rewrite length_map. apply (mapM_length _ _ _ Ha1).
Qed.

Lemma rewriteConstructor_once_witness :
  let repositoryParam :=
    Node TSParameterProperty []
      [Node (Identifier "users"
               (Some (TSTypeReference (Some "Repository")
                        [TSTypeReference (Some "User") []]))) [] []] in
  let n := Node (MethodDefinition "constructor") []
             [Sample.ident "constructor";
              Node FunctionExpression []
                [Sample.block []; repositoryParam; Sample.ident "logger"]] in
  let n' := Node (MethodDefinition "constructor") []
              [Sample.ident "constructor";
               Node FunctionExpression []
                 [Sample.block []; prismaParameter; Sample.ident "logger"]] in
  rewriteConstructor n' = Ok (n', false)
  /\ exists v v' ps ps',
       propValue n = Some v /\ params v = Some ps
       /\ propValue n' = Some v' /\ params v' = Some ps'
       /\ length ps' = length ps.
Proof.
  intros repositoryParam n n'.
  apply (rewriteConstructor_once n n' true). reflexivity.
Defined.

(* ------------------------------------------------------------------ *)
(** ** Files that hold none of the shapes *)
(* ------------------------------------------------------------------ *)

Lemma untouched_inv n :
  untouched n = true ->
  (isClassDeclaration n = true -> entityModel n = Ok None)
  /\ (isConstructor n = true -> exists n', rewriteConstructor n = Ok (n', false))
  /\ (isCallExpression n = true -> isRepositoryCall n = Ok false)
  /\ (forall specifiers source,
        kindOf n = ImportDeclaration specifiers source ->
        isForeignImport specifiers source = true)
  /\ isForFeatureParent n = false
  /\ isForRootCall n = false.
Proof.
  unfold untouched. intros H.
  apply andb_true_iff in H; destruct H as [H H6].
  apply andb_true_iff in H; destruct H as [H H5].
  apply andb_true_iff in H; destruct H as [H H4].
  apply andb_true_iff in H; destruct H as [H H3].
  apply andb_true_iff in H; destruct H as [H1 H2].
  repeat split.
  - intros Hc. rewrite Hc in H1. destruct (entityModel n) as [[|]|]; congruence.
  - intros Hc. rewrite Hc in H2.
    destruct (rewriteConstructor n) as [[n' [|]]|]; try discriminate. eauto.
  - intros Hc. rewrite Hc in H3.
    destruct (isRepositoryCall n) as [[|]|]; congruence.
  - intros sp src Hk. rewrite Hk in H4. exact H4.
  - apply negb_true_iff. assumption.
  - apply negb_true_iff. assumption.
Qed.

Lemma untouched_visitClass n : untouched n = true -> passesOver visitClass n.
Proof.
  intros H ctx. apply untouched_inv in H. destruct H as (H & _).
  unfold visitClass. destruct (isClassDeclaration n); [|reflexivity].
  rewrite H; reflexivity.
Qed.

Lemma untouched_visitConstructor n :
  untouched n = true -> passesOver visitConstructor n.
Proof.
  intros H ctx. apply untouched_inv in H. destruct H as (_ & H & _).
  unfold visitConstructor. destruct (isConstructor n).
  - destruct (H eq_refl) as (n' & Hn'). rewrite andb_true_r.
    destruct (insideClass ctx); [|reflexivity].
    rewrite Hn'. simpl. apply rewriteConstructor_quiet in Hn'. subst. reflexivity.
  - rewrite andb_false_r. reflexivity.
Qed.

Lemma untouched_visitCall n : untouched n = true -> passesOver visitCall n.
Proof.
  intros H ctx. apply untouched_inv in H. destruct H as (_ & _ & H & _).
  unfold visitCall. destruct (isCallExpression n); [|reflexivity].
  unfold rewriteCall. rewrite H; reflexivity.
Qed.

Lemma untouched_visitForFeature n :
  untouched n = true -> passesOver visitForFeature n.
Proof.
  intros H ctx. apply untouched_inv in H. destruct H as (_ & _ & _ & _ & H & _).
  unfold visitForFeature. rewrite H. reflexivity.
Qed.

Lemma untouched_visitForRoot n :
  untouched n = true -> passesOver visitForRoot n.
Proof.
  intros H ctx. apply untouched_inv in H. destruct H as (_ & _ & _ & _ & _ & H).
  unfold visitForRoot. rewrite H. reflexivity.
Qed.

Lemma untouched_rewriteImport n :
  untouched n = true -> rewriteImport n = ([n], []).
Proof.
  intros H. apply untouched_inv in H. destruct H as (_ & _ & _ & H & _).
  destruct n as [k cs l]. destruct k; try reflexivity.
  specialize (H _ _ eq_refl). unfold isForeignImport in H. simpl.
  destruct (source =? "typeorm").
  - apply andb_true_iff in H; destruct H as [H H3].
    apply andb_true_iff in H; destruct H as [H1 H2].
    apply negb_true_iff in H1, H2. rewrite H1, H2.
    destruct specifiers; [discriminate | reflexivity].
  - apply andb_true_iff in H. destruct H as [H1 H2].
    apply negb_true_iff in H1, H2. rewrite H1, H2. reflexivity.
Qed.

Lemma placeOuts_still k (l : list node) :
  forall i, placeOuts k i (map (fun c => [c]) l) = Ok l.
Proof.
  induction l as [|x l IH]; simpl; intros i; [reflexivity|].
  rewrite IH. destruct (inList k i); reflexivity.
Qed.

Lemma visitImports_still n :
  forallb untouched (below n) = true ->
  visitImports n = Ok (n, []).
Proof.
  induction n as [k cs l IH] using node_ind'. simpl. intros Hl.
  assert (Hmap :
    mapM (fun c =>
            if reached k c then
              let? v := visitImports c in
              let '(out, own) :=
                if isImportDeclaration (fst v)
                then rewriteImport (fst v) else ([fst v], []) in
              Ok (out, own ++ snd v)
            else Ok ([c], [])) l
    = Ok (map (fun c => ([c], [])) l)).
  { induction IH as [|x l Hx _ IHl]; simpl; [reflexivity|].
    simpl in Hl. rewrite forallb_app in Hl.
    apply andb_true_iff in Hl. destruct Hl as [Hxs Hl].
    rewrite IHl by exact Hl.
    destruct (reached k x); [|reflexivity].
    destruct x as [xk xcs xl]. simpl in Hxs.
    apply andb_true_iff in Hxs. destruct Hxs as [Hx0 Hxl].
    rewrite Hx by exact Hxl. cbn [bind fst snd].
    destruct (isImportDeclaration (Node xk xcs xl));
      [rewrite untouched_rewriteImport by exact Hx0|]; reflexivity. }
  rewrite Hmap. simpl.
  replace (map fst (map (fun c : node => ([c], @nil importEvent)) l))
    with (map (fun c : node => [c]) l)
    by (clear; induction l; simpl; [reflexivity | now f_equal]).
  rewrite placeOuts_still. simpl. f_equal. f_equal.
  clear. induction l; simpl; [reflexivity | assumption].
Qed.

Lemma sourceFree_Forall {E}
    (visit : context -> node -> result (list node * node * list E)) rt :
  (forall n, untouched n = true -> passesOver visit n) ->
  sourceFree rt = true ->
  Forall (passesOver visit) (below rt).
Proof.
  intros Hv H. unfold sourceFree in H. rewrite forallb_forall in H.
  apply Forall_forall. intros x Hx. apply Hv, H, Hx.
Qed.

Lemma sourceFree_applyAll rt :
  sourceFree rt = true -> applyAll rt = Ok (initialState rt).
Proof.
  intros H. unfold applyAll, transformEntityClasses. simpl.
  rewrite (walkBelow_still _ _ (sourceFree_Forall _ _ untouched_visitClass H)).
  simpl. unfold transformRepositoryUsage. simpl.
  rewrite (walkBelow_still _ _ (sourceFree_Forall _ _ untouched_visitConstructor H)).
  simpl.
  rewrite (walkBelow_still _ _ (sourceFree_Forall _ _ untouched_visitCall H)).
  simpl. unfold transformModuleImports. simpl.
  rewrite (visitImports_still _ H). simpl.
  rewrite (walkBelow_still _ _ (sourceFree_Forall _ _ untouched_visitForFeature H)).
  simpl.
  rewrite (walkBelow_still _ _ (sourceFree_Forall _ _ untouched_visitForRoot H)).
  reflexivity.
Qed.

(** X9.  The no-op guarantee.  When no node that a traversal reaches below
    the root is an entity class, a constructor that injects a repository,
    a call on a [repository] member, an import of the source library or
    of an entity module, or a module registration, the stages leave the
    tree and every flag as they were, and the transform returns the very
    string it was given, without calling the printer. *)
Theorem no_op_without_source_shapes
    (parse : string -> result node) (toSource : node -> result string)
    (source : string) (rt : node) :
  parse source = Ok rt -> sourceFree rt = true ->
  applyAll rt = Ok (initialState rt)
  /\ transform parse toSource source = Ok source.
Proof.
  intros Hp H. split; [apply sourceFree_applyAll, H|].
  unfold transform. rewrite Hp. simpl.
  rewrite (sourceFree_applyAll _ H). reflexivity.
Qed.

Lemma no_op_without_source_shapes_witness :
  let rt :=
    Sample.program
      [Sample.import ["Injectable"] "@nestjs/common";
       Sample.class "Clock" []
         [Sample.method "now"
            [Sample.statement
               (Sample.call
                  (j.memberExpression (Sample.ident "Date") (Sample.ident "now"))
                  [])]]] in
  applyAll rt = Ok (initialState rt)
  /\ transform (fun _ => Ok rt) (fun _ => Thrown) "class Clock {}" = Ok "class Clock {}".
Proof.
  intros rt.
  apply (no_op_without_source_shapes (fun _ => Ok rt) (fun _ => Thrown)
           "class Clock {}" rt); reflexivity.
Defined.

(* ------------------------------------------------------------------ *)
(** ** The import declarations *)
(* ------------------------------------------------------------------ *)

(** X14.  An import of [typeorm] that names both [Entity] and [Repository]
    keeps [Repository]: the filter for the schema decorators starts again
    from the specifiers as they were, so the result of the first filter is
    lost, while the import of [PrismaService] is still asked for. *)
Theorem typeorm_import_with_entity_keeps_repository
    (specifiers : list specifier) (cs : list comment) (l : list node) :
  In (ImportSpecifier "Entity") specifiers ->
  In (ImportSpecifier "Repository") specifiers ->
  exists specifiers' events,
    rewriteImport (Node (ImportDeclaration specifiers "typeorm") cs l)
    = ([Node (ImportDeclaration specifiers' "typeorm") cs l], events)
    /\ specifiers' = filter (fun s => negb (importsOneOf schemaDecorators s)) specifiers
    /\ In (ImportSpecifier "Repository") specifiers'
    /\ ~ In (ImportSpecifier "Entity") specifiers'
    /\ In UnshiftPrismaService events
    /\ In ModulesChanged events.
Proof.
  intros He Hr.
  assert (HE : existsb (importsOneOf ["Entity"]) specifiers = true).
  { apply existsb_exists. exists (ImportSpecifier "Entity"). split; [exact He | reflexivity]. }
  assert (HR : existsb (importsOneOf ["Repository"]) specifiers = true).
  { apply existsb_exists. exists (ImportSpecifier "Repository"). split; [exact Hr | reflexivity]. }
  assert (Hin : In (ImportSpecifier "Repository")
                  (filter (fun s => negb (importsOneOf schemaDecorators s)) specifiers)).
  { apply filter_In. split; [exact Hr | reflexivity]. }
  exists (filter (fun s => negb (importsOneOf schemaDecorators s)) specifiers).
  eexists. split; [|split; [reflexivity|split; [exact Hin|split]]].
  - cbn -[filter schemaDecorators importsOneOf]. rewrite HE, HR.
    destruct (filter (fun s => negb (importsOneOf schemaDecorators s)) specifiers);
      [destruct Hin | reflexivity].
  - intros H. apply filter_In in H. destruct H as [_ H]. discriminate H.
  - split; simpl; auto.
Qed.

Lemma typeorm_import_with_entity_keeps_repository_witness :
  let specifiers := [ImportSpecifier "Entity"; ImportSpecifier "Column";
                     ImportSpecifier "Repository"] in
  exists specifiers' events,
    rewriteImport (Node (ImportDeclaration specifiers "typeorm") [] [])
    = ([Node (ImportDeclaration specifiers' "typeorm") [] []], events)
    /\ specifiers' = filter (fun s => negb (importsOneOf schemaDecorators s)) specifiers
    /\ In (ImportSpecifier "Repository") specifiers'
    /\ ~ In (ImportSpecifier "Entity") specifiers'
    /\ In UnshiftPrismaService events
    /\ In ModulesChanged events.
Proof.
  intros specifiers.
  apply (typeorm_import_with_entity_keeps_repository specifiers [] []);
    simpl; auto.
Defined.

Lemma visitImports_kind n n' ev :
  visitImports n = Ok (n', ev) -> kindOf n' = kindOf n.
Proof.
  destruct n as [k cs l]. simpl. intros H. inv_bind H. inv_bind H.
  injection H as <- _. reflexivity.
Qed.

Lemma rewriteImport_records n :
  isSourceLibraryImport n = true ->
  existsb isModulesChanged (snd (rewriteImport n)) = true.
Proof.
  unfold isSourceLibraryImport. destruct n as [k cs l]. simpl.
  destruct k; try discriminate. simpl.
  destruct (source =? "typeorm").
  - simpl. destruct (existsb (importsOneOf ["Repository"]) specifiers); [reflexivity|].
    simpl. intros ->. reflexivity.
  - intros ->. reflexivity.
Qed.

Lemma rewriteImport_kind_only n n' :
  kindOf n' = kindOf n -> snd (rewriteImport n') = snd (rewriteImport n).
Proof.
  destruct n as [k cs l], n' as [k' cs' l']. simpl. intros ->.
  destruct k; try reflexivity. simpl.
  destruct (source =? "typeorm"); [reflexivity|].
  destruct (JsString.includes "typeorm/repository" (JsString.toLowerCase source));
    [reflexivity|].
  destruct (JsString.endsWith ".entity" source || JsString.includes "/entities/" source);
    reflexivity.
Qed.

Lemma isSourceLibraryImport_import n :
  isSourceLibraryImport n = true -> isImportDeclaration n = true.
Proof.
  unfold isSourceLibraryImport, isImportDeclaration.
  destruct (kindOf n); try discriminate. reflexivity.
Qed.

Lemma visitImports_records n :
  forall n' ev,
    visitImports n = Ok (n', ev) ->
    existsb isSourceLibraryImport (below n) = true ->
    existsb isModulesChanged ev = true.
Proof.
  induction n as [k cs l IH] using node_ind'. intros n' ev H Hex.
  simpl in H. inv_bind H. rename a into r. rename Ha into Hr.
  inv_bind H. injection H as _ <-.
  clear a Ha. simpl in Hex. rename Hr into Ha.
  revert r Ha Hex. induction IH as [|x l Hx _ IHl]; intros r Ha Hex; [discriminate|].
  apply mapM_cons_inv in Ha. destruct Ha as (y & r' & Hy & Hr' & ->).
  simpl in Hex. rewrite existsb_app in Hex. simpl. rewrite existsb_app.
  apply orb_true_iff in Hex. destruct Hex as [Hex | Hex].
  - apply orb_true_iff. left.
    destruct (reached k x); [|discriminate].
    inv_bind Hy. destruct a as [x' evx]. simpl in Hy.
    pose proof (visitImports_kind _ _ _ Ha) as Hk.
    assert (Hsub : isSourceLibraryImport x = true
                   \/ existsb isSourceLibraryImport (below x) = true).
    { destruct x as [xk xcs xl]. simpl in Hex. apply orb_true_iff in Hex. exact Hex. }
    destruct Hsub as [Hs | Hs].
    + assert (Hi : isImportDeclaration x' = true).
      { unfold isImportDeclaration. rewrite Hk.
        apply isSourceLibraryImport_import in Hs. exact Hs. }
      rewrite Hi in Hy.
      pose proof (rewriteImport_records _ Hs) as Hr.
      rewrite <- (rewriteImport_kind_only x x' Hk) in Hr.
      destruct (rewriteImport x') as [out own]. injection Hy as <-. simpl in *.
      rewrite existsb_app, Hr. reflexivity.
    + specialize (Hx _ _ Ha Hs).
      destruct (if isImportDeclaration x' then rewriteImport x' else ([x'], []))
        as [out own]. injection Hy as <-. simpl.
      rewrite existsb_app, Hx. apply orb_true_r.
  - apply orb_true_iff. right. apply (IHl _ Hr' Hex).
Qed.

Lemma fired_filter {A} (f : A -> bool) l : fired (filter f l) = existsb f l.
Proof.
  induction l as [|x l IH]; simpl; [reflexivity|].
  destruct (f x); [reflexivity | exact IH].
Qed.

(** X15.  When the file holds, where a traversal reaches it, an import of
    [typeorm] that names [Repository] or [Entity], or an import from a
    path that contains [typeorm/repository], the stage leaves
    [fileChanged.modules] set if it runs through. *)
Theorem source_library_import_sets_modules (st st' : state) (import : node) :
  transformModuleImports st = Ok st' ->
  In import (below (tree st)) ->
  isSourceLibraryImport import = true ->
  modules (changed st') = true.
Proof.
  intros H Hin Hi.
  assert (Hex : existsb isSourceLibraryImport (below (tree st)) = true).
  { apply existsb_exists. eauto. }
  unfold transformModuleImports in H.
  inv_bind H. destruct a as [t1 ev].
  pose proof (visitImports_records _ _ _ Ha Hex) as Hev.
  inv_bind H. destruct a as [t2 l2]. inv_bind H. destruct a as [t3 l3].
  injection H as <-. simpl.
  rewrite fired_filter, Hev. rewrite !orb_true_r. reflexivity.
Qed.

Lemma source_library_import_sets_modules_witness :
  let import := Sample.import ["Repository"] "typeorm" in
  let st := initialState (Sample.program [import]) in
  modules (changed (stateOf (transformModuleImports st) (tree st))) = true.
Proof.
  intros import st.
  apply (source_library_import_sets_modules st
           (stateOf (transformModuleImports st) (tree st)) import).
  - reflexivity.
  - simpl. left. reflexivity.
  - reflexivity.
Defined.

(* ------------------------------------------------------------------ *)
(** ** The module registrations *)
(* ------------------------------------------------------------------ *)

(** X16.  [addPrismaModuleImport] leaves a file that imports from
    [./prisma/prisma.module], and calling it again changes nothing: the
    import is put in at most once. *)
Theorem addPrismaModuleImport_once (rt : node) :
  find (importsFrom "./prisma/prisma.module") (addPrismaModuleImport rt) <> []
  /\ addPrismaModuleImport (addPrismaModuleImport rt) = addPrismaModuleImport rt
  /\ (find (importsFrom "./prisma/prisma.module") rt = [] ->
      addPrismaModuleImport rt = unshift prismaModuleImport rt).
Proof.
  assert (H1 : find (importsFrom "./prisma/prisma.module") (addPrismaModuleImport rt) <> []).
  { unfold addPrismaModuleImport.
    destruct (find (importsFrom "./prisma/prisma.module") rt) eqn:Hf.
    - destruct rt as [k cs l]. destruct k; discriminate.
    - rewrite Hf. discriminate. }
  split; [exact H1|]. split.
  - unfold addPrismaModuleImport at 1.
    destruct (find (importsFrom "./prisma/prisma.module") (addPrismaModuleImport rt));
      [congruence | reflexivity].
  - intros Hf. unfold addPrismaModuleImport. rewrite Hf. reflexivity.
Qed.

Lemma identifier_passed_over_forFeature s t cs l :
  passesOver visitForFeature (Node (Identifier s t) cs l).
Proof. intros ctx. reflexivity. Qed.

Lemma identifier_passed_over_forRoot s t cs l :
  passesOver visitForRoot (Node (Identifier s t) cs l).
Proof. intros ctx. reflexivity. Qed.

(** X17.  A registration written [TypeOrmModule.forFeature(args)] is not
    rewritten: the pass over the [forFeature] calls looks for calls whose
    callee is the bare identifier [forFeature], and the pass over the
    [forRoot] calls for the property [forRoot].  When nothing among the
    arguments is matched the call leaves both passes as it was and nothing
    is recorded. *)
Theorem forFeature_registration_not_rewritten (ctx : context)
    (cs : list comment) (args : list node) :
  Forall (passesOver visitForFeature) (flat_map subnodes args) ->
  Forall (passesOver visitForRoot) (flat_map subnodes args) ->
  let call := typeOrmModuleCall cs "forFeature" args in
  walk visitForFeature ctx call = Ok ([], call, [])
  /\ walk visitForRoot ctx call = Ok ([], call, []).
Proof.
  intros Hf Hr call. split; apply walk_still.
  - constructor; [intros c; reflexivity|]. simpl.
    constructor; [intros c; reflexivity|].
    constructor; [apply identifier_passed_over_forFeature|].
    constructor; [apply identifier_passed_over_forFeature|].
    exact Hf.
  - constructor; [intros c; reflexivity|]. simpl.
    constructor; [intros c; reflexivity|].
    constructor; [apply identifier_passed_over_forRoot|].
    constructor; [apply identifier_passed_over_forRoot|].
    exact Hr.
Qed.

Lemma forFeature_registration_not_rewritten_witness :
  let args := [Node (Other "ArrayExpression" 0) [] [Sample.ident "User"]] in
  let call := typeOrmModuleCall [] "forFeature" args in
  walk visitForFeature Sample.inUserService call = Ok ([], call, [])
  /\ walk visitForRoot Sample.inUserService call = Ok ([], call, []).
Proof.
  intros args.
  apply (forFeature_registration_not_rewritten Sample.inUserService [] args);
    repeat constructor.
Defined.

(** What the pass over the [forFeature] calls does match is a member
    expression on [TypeOrmModule] that holds the call of the bare
    identifier. *)
Example forFeature_bare_call_rewritten :
  visitForFeature Sample.inUserService
    (j.memberExpression (Sample.ident "TypeOrmModule")
       (Sample.call (Sample.ident "forFeature") [Sample.ident "User"]))
  = Ok ([], j.identifier "PrismaModule", [tt]).
Proof. reflexivity. Qed.

(** X18.  A [TypeOrmModule.forRoot(...)] call becomes the call
    [PrismaModule()]: the callee is the identifier alone, the arguments are
    gone, the comments of the call stay, the change is recorded, and the
    result is not a [forRoot] call any more. *)
Theorem forRoot_call_rewritten (ctx : context) (n : node) :
  isForRootCall n = true ->
  exists n',
    visitForRoot ctx n = Ok ([], n', [tt])
    /\ callee n' = Some (j.identifier "PrismaModule")
    /\ arguments n' = []
    /\ commentsOf n' = commentsOf n
    /\ isForRootCall n' = false.
Proof.
  intros H. unfold visitForRoot. rewrite H.
  destruct n as [k cs l]. destruct k; try discriminate.
  eexists. split; [reflexivity|]. repeat split.
Qed.

Lemma forRoot_call_rewritten_witness :
  let n := typeOrmModuleCall [] "forRoot" [Sample.ident "config"] in
  exists n',
    visitForRoot Sample.inUserService n = Ok ([], n', [tt])
    /\ callee n' = Some (j.identifier "PrismaModule")
    /\ arguments n' = []
    /\ commentsOf n' = commentsOf n
    /\ isForRootCall n' = false.
Proof.
  intros n. apply (forRoot_call_rewritten Sample.inUserService n). reflexivity.
Defined.

(* ------------------------------------------------------------------ *)
(** ** The schema extractor, further *)
(* ------------------------------------------------------------------ *)

Lemma visitClass_anonymous ctx f cs l :
  visitClass ctx (Node (ClassDeclaration None f) cs l) = Thrown.
Proof. reflexivity. Qed.

Lemma walk_visitClass_anonymous n :
  existsb isAnonymousClass (subnodes n) = true ->
  forall ctx, walk visitClass ctx n = Thrown.
Proof.
  induction n as [k cs l IH] using node_ind'. simpl. intros H ctx.
  destruct (mapM (fun c => if reached k c then walk visitClass (enter k ctx) c
                           else Ok ([], c, [])) l) as [r|] eqn:Hr;
    [|reflexivity].
  simpl. apply orb_true_iff in H. destruct H as [H | H].
  - unfold isAnonymousClass in H. simpl in H.
    destruct k; try discriminate. destruct id; [discriminate|].
    destruct (placeAll _ 0 (map fst r)); [|reflexivity]. reflexivity.
  - exfalso. apply existsb_exists in H. destruct H as (y & Hy & Hay).
    apply in_flat_map in Hy. destruct Hy as (x & Hx & Hyx).
    destruct (reached k x) eqn:Hreach; [|destruct Hyx].
    rewrite Forall_forall in IH.
    assert (Hth : walk visitClass (enter k ctx) x = Thrown).
    { apply IH; [exact Hx|]. apply existsb_exists. eauto. }
    rewrite (mapM_Thrown _ _ _ Hx) in Hr; [discriminate|].
    rewrite Hreach. exact Hth.
Qed.

(** X19.  A class declaration without a name, where a traversal reaches
    it below the root, makes the first stage throw, entity or not: the
    callback reads the name of the class before anything else.  The stages
    and the transform throw with it, so such a file is not transformed at
    all. *)
Theorem anonymous_class_aborts_transform (rt c : node) :
  In c (below rt) ->
  isAnonymousClass c = true ->
  applyAll rt = Thrown
  /\ forall parse toSource source,
       parse source = Ok rt -> transform parse toSource source = Thrown.
Proof.
  intros Hin Hc.
  assert (H : applyAll rt = Thrown).
  { unfold applyAll, transformEntityClasses. simpl.
    destruct rt as [k cs l]. simpl in *.
    apply in_flat_map in Hin. destruct Hin as (x & Hx & Hcx).
    destruct (reached k x) eqn:Hreach; [|destruct Hcx].
    assert (Hth : walk visitClass (enter k (rootContext (Node k cs l))) x = Thrown).
    { apply walk_visitClass_anonymous. apply existsb_exists. eauto. }
    rewrite (mapM_Thrown _ _ x Hx); [reflexivity|].
    rewrite Hreach. exact Hth. }
  split; [exact H|].
  intros parse toSource source Hp. unfold transform. rewrite Hp. simpl.
  rewrite H. reflexivity.
Qed.

Lemma anonymous_class_aborts_transform_witness :
  let c := Node (ClassDeclaration None 1) [] [Node (Other "ClassBody" 0) [] []] in
  let rt := Sample.program [Node (Other "ExportDefaultDeclaration" 1) [] [c]] in
  applyAll rt = Thrown
  /\ forall parse toSource source,
       parse source = Ok rt -> transform parse toSource source = Thrown.
Proof.
  intros c rt. apply (anonymous_class_aborts_transform rt c).
  - simpl. right. left. reflexivity.
  - reflexivity.
Defined.

Lemma visitClass_Other t f cs l : passesOver visitClass (Node (Other t f) cs l).
Proof. intros ctx. reflexivity. Qed.

(** X20.  An entity class that is a child of a plain node (the program, a
    block, an export declaration).  Where the class is an element of the
    list of that node, the first stage puts the comment node in front of it
    in the list, leaves the class as it was and records its model; where
    the class is the value of a field, as under [export], the stage
    throws. *)
Theorem entity_class_marked_or_thrown (ctx : context)
    (t : string) (f : nat) (cs : list comment) (l1 l2 : list node)
    (classNode : node) (model : string * string) :
  isClassDeclaration classNode = true ->
  entityModel classNode = Ok (Some model) ->
  Forall (passesOver visitClass) (below classNode) ->
  Forall (passesOver visitClass) (flat_map subnodes l1) ->
  Forall (passesOver visitClass) (flat_map subnodes l2) ->
  walk visitClass ctx (Node (Other t f) cs (l1 ++ classNode :: l2))
  = if (f <=? length l1)%nat
    then Ok ([], Node (Other t f) cs (l1 ++ entityNote :: classNode :: l2), [model])
    else Thrown.
Proof.
  intros Hc Hm Hb H1 H2.
  apply (walk_insert visitClass t f cs l1 classNode l2
           [entityNote] classNode [model] ctx
           (visitClass_Other t f) H1 H2); [|discriminate].
  rewrite (walk_at _ _ Hb). unfold visitClass. rewrite Hc, Hm. reflexivity.
Qed.

Lemma entity_class_marked_or_thrown_witness :
  let classNode :=
    Sample.class "User" [Sample.decorator "Entity" []]
      [Node (ClassProperty (Some TSStringKeyword)) []
         [Sample.ident "name"; Sample.decorator "Column" []]] in
  let model :=
    ("User",
     "model User {" ^^ nl ^^ "  name String" ^^ nl ^^ nl
     ^^ "  @@map(" ^^ dq ^^ "user" ^^ dq ^^ ")" ^^ nl ^^ "}" ^^ nl) in
  walk visitClass Sample.inUserService
    (Node (Other "Program" 0) [] ([] ++ classNode :: []))
  = if (0 <=? length (@nil node))%nat
    then Ok ([], Node (Other "Program" 0) [] ([] ++ entityNote :: classNode :: []),
             [model])
    else Thrown.
Proof.
  intros classNode model.
  apply (entity_class_marked_or_thrown Sample.inUserService "Program" 0 [] [] []
           classNode model).
  - reflexivity.
  - reflexivity.
  - repeat (constructor; [intros ?; reflexivity|]). constructor.
  - constructor.
  - constructor.
Defined.

(** An exported entity class is the value of the field [declaration]. *)
Example exported_entity_class_throws :
  applyAll
    (Sample.program
       [Sample.exported (Sample.class "User" [Sample.decorator "Entity" []] [])])
  = Thrown.
Proof. reflexivity. Qed.

(* ------------------------------------------------------------------ *)
(** ** The model definition *)
(* ------------------------------------------------------------------ *)

Ltac split_var_matches :=
  repeat match goal with
         | |- context [match ?x with _ => _ end] => is_var x; destruct x
         end.

(** X21.  The model of an entity class is filed under the name of the
    class, opens with [model <class> {], closes with the [@@map] line and
    the brace, and the table name in the [@@map] line is, for a class name
    of ASCII characters, the class name with its letters in lower case
    when the [@Entity] decorator gave no name. *)
Theorem entityModel_frame (classNode : node) (className definition : string) :
  entityModel classNode = Ok (Some (className, definition)) ->
  (exists n, kindOf classNode = ClassDeclaration (Some className) n)
  /\ exists fields tableName,
       definition
       = "model " ^^ className ^^ " {" ^^ nl ^^ fields ^^ nl
         ^^ "  @@map(" ^^ dq ^^ tableName ^^ dq ^^ ")" ^^ nl ^^ "}" ^^ nl
       /\ (foldM scanEntityDecorator (find isDecorator classNode) (false, PUndefined)
           = Ok (true, PUndefined) ->
           JsString.isAscii className = true ->
           tableName = JsString.toLowerCase className).
Proof.
  intros H.
  destruct (entityModel_inv _ _ _ H) as (n & entityName & lines & Hk & Hs & _ & ->).
  split; [eauto|].
  exists lines.
  exists (if truthy entityName then tpl entityName else JsString.toLowerCase className).
  split; [reflexivity|].
  intros H' _. rewrite Hs in H'. injection H' as ->. reflexivity.
Qed.

Lemma entityModel_frame_witness :
  let classNode :=
    Sample.class "Account" [Sample.decorator "Entity" []]
      [Node (ClassProperty (Some TSStringKeyword)) []
         [Sample.ident "email"; Sample.decorator "Column" []]] in
  (exists n, kindOf classNode = ClassDeclaration (Some "Account") n)
  /\ exists fields tableName,
       "model Account {" ^^ nl ^^ "  email String" ^^ nl ^^ nl
       ^^ "  @@map(" ^^ dq ^^ "account" ^^ dq ^^ ")" ^^ nl ^^ "}" ^^ nl
       = "model " ^^ "Account" ^^ " {" ^^ nl ^^ fields ^^ nl
         ^^ "  @@map(" ^^ dq ^^ tableName ^^ dq ^^ ")" ^^ nl ^^ "}" ^^ nl
       /\ (foldM scanEntityDecorator (find isDecorator classNode) (false, PUndefined)
           = Ok (true, PUndefined) ->
           JsString.isAscii "Account" = true ->
           tableName = JsString.toLowerCase "Account").
Proof.
  intros classNode.
  apply (entityModel_frame classNode "Account"). reflexivity.
Defined.

Lemma columnOption_type vars prop vars' k :
  columnOption vars prop = Ok vars' ->
  key prop = Some k -> isStr "type" (name k) = false ->
  fst vars' = fst vars.
Proof.
  unfold columnOption. destruct vars as [t o]. intros H Hk Hn.
  unfold keyName in H. rewrite Hk in H. simpl in H. rewrite Hn in H.
  destruct (isStr "nullable" (name k)).
  { inv_bind H. injection H as <-. reflexivity. }
  destruct (isStr "default" (name k)).
  { inv_bind H. inv_bind H. injection H as <-. reflexivity. }
  destruct (isStr "unique" (name k)).
  { inv_bind H. injection H as <-. reflexivity. }
  injection H as <-. reflexivity.
Qed.

Lemma columnOptions_type props :
  forall vars vars',
    foldM columnOption props vars = Ok vars' ->
    existsb (named "type") props = false ->
    fst vars' = fst vars.
Proof.
  induction props as [|p props IH]; simpl; intros vars vars' H Hn.
  - injection H as <-. reflexivity.
  - inv_bind H. apply orb_false_iff in Hn. destruct Hn as [Hp Hps].
    rewrite (IH _ _ H Hps).
    assert (Hk : exists k, key p = Some k).
    { unfold columnOption, keyName in Ha. destruct vars.
      destruct (key p); [eauto | discriminate]. }
    destruct Hk as (k & Hk). unfold named in Hp. rewrite Hk in Hp.
    eapply columnOption_type; eauto.
Qed.

(** X22.  When [@Column] is given an options object without a [type]
    property, the column is rendered with the type [String] whatever the
    TypeScript type of the property is: the type annotation is only read
    when the decorator has no argument at all. *)
Theorem column_options_without_type_render_String
    (className : string) (property decorator : node) (propertyName : prim)
    (cs : list comment) (props rest : list node) (field : string) :
  decoratorCall decorator
  = Ok (Some (PStr "Column", Node ObjectExpression cs props :: rest)) ->
  existsb (named "type") props = false ->
  decoratedField className property propertyName decorator = Ok field ->
  exists columnOptions,
    field = "  " ^^ tpl propertyName ^^ " String" ^^ columnOptions ^^ nl.
Proof.
  intros Hd Hn H. unfold decoratedField in H. rewrite Hd in H.
  cbn -[foldM] in H. inv_bind H. destruct a as [columnType columnOptions].
  injection H as <-.
  pose proof (columnOptions_type _ _ _ Ha Hn) as Ht. simpl in Ht. subst columnType.
  exists (match columnOptions with
          | [] => ""
          | _ :: _ => " " ^^ String.concat " " columnOptions
          end).
  reflexivity.
Qed.

Lemma column_options_without_type_render_String_witness :
  let decorator :=
    Sample.decorator "Column"
      [j.objectExpression
         [j.property (Sample.ident "unique") (Node (BooleanLiteral true) [] [])]] in
  let property :=
    Node (ClassProperty (Some TSNumberKeyword)) [] [Sample.ident "age"; decorator] in
  exists columnOptions,
    "  age String @unique" ^^ nl
    = "  " ^^ tpl (PStr "age") ^^ " String" ^^ columnOptions ^^ nl.
Proof.
  intros decorator property.
  apply (column_options_without_type_render_String "User" property decorator
           (PStr "age") []
           [j.property (Sample.ident "unique") (Node (BooleanLiteral true) [] [])]
           []); reflexivity.
Defined.

(** X23.  [@PrimaryGeneratedColumn] with a first argument that is not the
    string [uuid] or [increment] (an options object, another strategy
    name) renders the field as a bare [Int]: no [@id], no default. *)
Theorem primary_generated_column_other_argument
    (className : string) (property decorator : node) (propertyName : prim)
    (firstArg : node) (rest : list node) :
  decoratorCall decorator
  = Ok (Some (PStr "PrimaryGeneratedColumn", firstArg :: rest)) ->
  value firstArg <> PStr "uuid" ->
  value firstArg <> PStr "increment" ->
  decoratedField className property propertyName decorator
  = Ok ("  " ^^ tpl propertyName ^^ " Int " ^^ nl).
Proof.
  intros Hd Hu Hi. unfold decoratedField. rewrite Hd. simpl.
  unfold value in Hu, Hi.
  destruct (kindOf firstArg) eqn:K; try reflexivity.
  split_var_matches; try reflexivity; exfalso;
    (apply Hu; reflexivity) || (apply Hi; reflexivity).
Qed.

Lemma primary_generated_column_other_argument_witness :
  let decorator :=
    Sample.decorator "PrimaryGeneratedColumn" [Sample.str "rowid"] in
  decoratedField "User"
    (Node (ClassProperty None) [] [Sample.ident "id"; decorator]) (PStr "id") decorator
  = Ok ("  " ^^ tpl (PStr "id") ^^ " Int " ^^ nl).
Proof.
  intros decorator.
  apply (primary_generated_column_other_argument "User" _ decorator (PStr "id")
           (Sample.str "rowid") []); [reflexivity | discriminate | discriminate].
Defined.

(** X24.  The target of a relation is never the empty string: where the
    thunk or the annotation gives no name the placeholder [Unknown] stands;
    and when the decorator has arguments the annotation of the property is
    not consulted, so a first argument that is not an arrow function gives
    [Unknown] even for a property with a declared type. *)
Theorem relationTarget_never_empty (property : node) (decoratorArgs : list node)
    (target : string) :
  relationTarget property decoratorArgs = Ok target ->
  target <> ""
  /\ (forall firstArg rest,
        decoratorArgs = firstArg :: rest ->
        kindOf firstArg <> ArrowFunctionExpression ->
        target = "Unknown").
Proof.
  unfold relationTarget. intros H. inv_bind H. injection H as <-.
  assert (Hstr : a = PUndefined \/ exists s, a = PStr s).
  { destruct decoratorArgs as [|firstArg rest].
    - destruct (kindOf property); try (injection Ha as <-; eauto; fail).
      unfold typeName in Ha.
      repeat match type of Ha with
             | context [match ?x with _ => _ end] => destruct x
             end;
        injection Ha as <-; simpl; eauto.
    - destruct (kindOf firstArg); try (injection Ha as <-; eauto; fail).
      inv_bind Ha. injection Ha as <-.
      destruct (isIdentifier a0); [|eauto].
      unfold name. destruct (kindOf a0); eauto. }
  split.
  - destruct Hstr as [-> | [s ->]]; simpl; [discriminate|].
    destruct (s =? "") eqn:Hs; simpl; [discriminate|].
    intros ->. discriminate.
  - intros firstArg rest -> Hk.
    destruct (kindOf firstArg); try (injection Ha as <-; reflexivity).
    congruence.
Qed.

Lemma relationTarget_never_empty_witness :
  let property :=
    Node (ClassProperty (Some (TSTypeReference (Some "Profile") []))) []
      [Sample.ident "profile"] in
  "Unknown" <> ""
  /\ (forall firstArg rest,
        [Sample.str "Profile"] = firstArg :: rest ->
        kindOf firstArg <> ArrowFunctionExpression ->
        "Unknown" = "Unknown").
Proof.
  intros property.
  apply (relationTarget_never_empty property [Sample.str "Profile"] "Unknown").
  reflexivity.
Defined.

(* ------------------------------------------------------------------ *)
(** ** The schema document and the [entities] flag *)
(* ------------------------------------------------------------------ *)

Lemma mapSet_fired k v m : fired (mapSet k v m) = true.
Proof. destruct m as [|[k' v'] m]; simpl; [reflexivity|]. destruct (k =? k'); reflexivity. Qed.

Lemma fold_mapSet_fired models :
  forall m,
    fired (fold_left (fun m kv => mapSet (fst kv) (snd kv) m) models m)
    = fired models || fired m.
Proof.
  induction models as [|kv models IH]; simpl; intros m; [reflexivity|].
  rewrite IH, mapSet_fired. apply orb_true_r.
Qed.

Lemma transformRepositoryUsage_entities st st' :
  transformRepositoryUsage st = Ok st' ->
  entities (changed st') = entities (changed st)
  /\ prismaModels st' = prismaModels st.
Proof.
  unfold transformRepositoryUsage. intros H. inv_bind H.
  destruct a as [t1 l1]. inv_bind H. destruct a as [t2 l2].
  injection H as <-. split; reflexivity.
Qed.

Lemma transformModuleImports_entities st st' :
  transformModuleImports st = Ok st' ->
  entities (changed st') = entities (changed st)
  /\ prismaModels st' = prismaModels st.
Proof.
  unfold transformModuleImports. intros H.
  inv_bind H. destruct a as [t1 ev].
  inv_bind H. destruct a as [t2 l2]. inv_bind H. destruct a as [t3 l3].
  injection H as <-. split; reflexivity.
Qed.

(** X25.  When the stages are through, a schema is handed to the log
    exactly when the [entities] flag is set: a file logs a schema if and
    only if an entity class was found in it.  The tree then goes to the
    printer, whose result, or whose throw, is that of the transform. *)
Theorem schema_logged_iff_entities (rt : node) (st : state) :
  applyAll rt = Ok st ->
  (loggedSchema st <> None <-> entities (changed st) = true)
  /\ (loggedSchema st <> None ->
      anyChanged (changed st) = true
      /\ forall parse toSource source,
           parse source = Ok rt ->
           transform parse toSource source = toSource (tree st)).
Proof.
  intros Hall. pose proof Hall as H.
  unfold applyAll in H. inv_bind H. rename a into s1.
  inv_bind H. rename a into s2.
  destruct (transformRepositoryUsage_entities _ _ Ha0) as [E2 M2].
  destruct (transformModuleImports_entities _ _ H) as [E3 M3].
  assert (Heq : fired (prismaModels st) = entities (changed st)).
  { rewrite M3, M2, E3, E2.
    unfold transformEntityClasses in Ha. inv_bind Ha. destruct a as [t models].
    injection Ha as <-. simpl. rewrite fold_mapSet_fired. reflexivity. }
  assert (Hiff : loggedSchema st <> None <-> entities (changed st) = true).
  { unfold loggedSchema. rewrite Heq.
    destruct (entities (changed st)); split; congruence. }
  split; [exact Hiff|].
  intros Hl. apply Hiff in Hl.
  assert (Hany : anyChanged (changed st) = true)
    by (unfold anyChanged; rewrite Hl; reflexivity).
  split; [exact Hany|].
  intros parse toSource source Hp. unfold transform. rewrite Hp. simpl.
  rewrite Hall. simpl. rewrite Hany. reflexivity.
Qed.

Lemma schema_logged_iff_entities_witness :
  let rt := Sample.program [Sample.class "User" [Sample.decorator "Entity" []] []] in
  let st := stateOf (applyAll rt) rt in
  (loggedSchema st <> None <-> entities (changed st) = true)
  /\ (loggedSchema st <> None ->
      anyChanged (changed st) = true
      /\ forall parse toSource source,
           parse source = Ok rt ->
           transform parse toSource source = toSource (tree st)).
Proof.
  intros rt st. apply (schema_logged_iff_entities rt st). reflexivity.
Defined.
